(** * CLIP-Image-Captioning: training orchestration and checkpoint lifecycle

    A shallow embedding of [train.py]: the [CheckpointSaver] callback and the
    [train] entry point.  External collaborators (the file system, the
    training engine, the data loader, the dataset and model classes) appear
    as events of a trace; the Python code that calls them is embedded as
    functions of a writer/exception monad over that trace. *)

From Stdlib Require Import Ascii String ZArith Sorted.
From stdpp Require Import base numbers list strings pretty gmap.

Open Scope string_scope.
Open Scope list_scope.
Open Scope Z_scope.

(** ** Python runtime *)

Module Py.

(** The exceptions the embedded code raises. *)
Inductive exn : Type :=
| ValueError (msg : string)
| ZeroDivisionError.

Inductive result (A : Type) : Type :=
| Ok (a : A)
| Raise (e : exn).
Global Arguments Ok {A} a.
Global Arguments Raise {A} e.

(** Values a command-line argument can hold once parsed. *)
#[warnings="-register-all"]
Inductive value : Type :=
| VNone
| VBool (b : bool)
| VInt (n : Z)
| VStr (s : string)
| VList (l : list value)
| VTuple (l : list value).

(** [isinstance(v, int)]: [bool] is a subclass of [int]. *)
Definition isinstance_int (v : value) : bool :=
  match v with
  | VBool _ | VInt _ => true
  | _ => false
  end.

(** [v != n] for an integer literal [n]; [True] and [False] compare as
    [1] and [0], values of other types are never equal to an integer. *)
Definition ne_int (v : value) (n : Z) : bool :=
  match v with
  | VInt m => negb (m =? n)
  | VBool b => negb ((if b then 1 else 0) =? n)
  | _ => true
  end.

(** [a % b] on integers: floor modulo (the sign of the result follows the
    divisor), [ZeroDivisionError] when [b] is [0]. *)
Definition mod_ (a b : Z) : result Z :=
  if decide (b = 0) then Raise ZeroDivisionError else Ok (a `mod` b).

(** [f"{n}"] for an integer: its decimal numeral, with a leading [-] when
    negative. *)
Definition str (n : Z) : string := pretty n.

(** [s.split(sep)] for a one-character separator. *)
Fixpoint split (sep : ascii) (s : string) : list string :=
  match s with
  | EmptyString => [EmptyString]
  | String c s' =>
      if decide (c = sep) then EmptyString :: split sep s'
      else match split sep s' with
           | w :: ws => String c w :: ws
           | [] => [String c EmptyString]
           end
  end.

End Py.
Import Py.

(** ** Paths *)

(** A [pathlib.Path] is kept as the sequence of segments it was built from:
    [Path(s)] is one segment and [p / s] appends one.  How the operating
    system normalises separators inside a segment is not part of the model. *)
Record Path : Type := MkPath { segments : list string }.

Definition Path_of (s : string) : Path := MkPath [s].
Definition Path_div (p : Path) (s : string) : Path := MkPath (segments p ++ [s]).
Infix "//" := Path_div (at level 40, left associativity).

Global Instance Path_eq_dec : EqDecision Path.
Proof. solve_decision. Defined.
Global Instance Path_countable : Countable Path.
Proof. apply (inj_countable' segments MkPath). by intros []. Defined.

(** ** The trainer object and the trace of external calls *)

(** [pl.Trainer]: its constructor arguments and the two counters the engine
    advances and the callback reads.  The record is what [train] hands to
    the constructor; whether the engine accepts the arguments (it refuses a
    [gpus] it cannot parse) is the engine's matter and not part of the
    model, so a statement about a [Fit] call reads "if the engine is
    started". *)
Record Trainer : Type := MkTrainer {
  gpus : value;
  max_epochs : Z;
  strategy : option string;
  precision : Z;
  current_epoch : Z;
  global_step : Z
}.

Definition set_counters (t : Trainer) (epoch step : Z) : Trainer :=
  MkTrainer (gpus t) (max_epochs t) (strategy t) (precision t) epoch step.

(** A hook invocation of the engine, with the counters it has set. *)
Inductive Hook : Type :=
| EpochEnd (epoch step : Z)
| BatchEnd (epoch step : Z).

(** Keyword arguments of the caption models ([model_kwargs]). *)
Record ModelKwargs : Type := MkModelKwargs {
  kw_language_model_type : string;
  kw_language_model_variant : string;
  kw_prefix_length : Z;
  kw_clip_prefix_length : Z;
  kw_prefix_size : Z;
  kw_num_layers : Z;
  kw_num_attention_heads : Z;
  kw_mapping_type : string;
  kw_scheduler_warmup_steps : Z;
  kw_total_steps : Z;
  kw_use_deepspeed : bool
}.

Inductive Model : Type :=
| CLIPCaptionModel (kw : ModelKwargs)
| CLIPCaptionPrefixOnly (kw : ModelKwargs).

(** ** Datasets *)

Section Datasets.
Context {Item : Type}.

(** Modelled from the spec: [MultiplePrefixDataset] of dataset.py, the
    CompositeDataset.  It is an ordered concatenation of member datasets
    with the cumulative-length boundaries computed at construction time;
    [merge] of fewer than two datasets fails with the configuration error. *)
Record MultiplePrefixDataset : Type := MkMultiple {
  members : list (list Item);
  boundaries : list nat
}.

(** Modelled from the spec: the cumulative-length boundaries, the running
    totals of the member lengths, starting after [acc] items. *)
Fixpoint cumulative (acc : nat) (ms : list (list Item)) : list nat :=
  match ms with
  | [] => []
  | m :: ms' => (acc + length m)%nat :: cumulative (acc + length m)%nat ms'
  end.

(** Modelled from the spec: [merge(datasets...)], the constructor; it needs
    two datasets or more and fixes the boundaries. *)
Definition merge (datasets : list (list Item)) : result MultiplePrefixDataset :=
  if (length datasets <? 2)%nat
  then Raise (ValueError "merging needs at least 2 datasets")
  else Ok (MkMultiple datasets (cumulative 0 datasets)).

(** Modelled from the spec: index resolution by linear search through the
    boundaries; [k] counts the members passed, [start] is the boundary
    before member [k].  The result is the owning member and the local
    index. *)
Fixpoint locate (bounds : list nat) (k start i : nat) : option (nat * nat) :=
  match bounds with
  | [] => None
  | b :: bounds' =>
      if (i <? b)%nat then Some (k, (i - start)%nat)
      else locate bounds' (S k) b i
  end.

Definition resolve (c : MultiplePrefixDataset) (i : nat) : option (nat * nat) :=
  locate (boundaries c) 0 0 i.

(** Modelled from the spec: the length of the composite, its last boundary. *)
Definition multiple_len (c : MultiplePrefixDataset) : nat :=
  default 0%nat (last (boundaries c)).

(** Modelled from the spec: retrieval is delegated to the owning member. *)
Definition multiple_getitem (c : MultiplePrefixDataset) (i : nat) : option Item :=
  match resolve c i with
  | Some (k, off) => m ← members c !! k; m !! off
  | None => None
  end.

(** What [train] calls [dataset]: one [TokenPrefixDataset] or a merged one. *)
Inductive Dataset : Type :=
| Single (items : list Item)
| Multiple (c : MultiplePrefixDataset).

Definition len (d : Dataset) : nat :=
  match d with
  | Single items => length items
  | Multiple c => multiple_len c
  end.

Definition getitem (d : Dataset) (i : nat) : option Item :=
  match d with
  | Single items => items !! i
  | Multiple c => multiple_getitem c i
  end.

(** [torch.utils.data.DataLoader]: the arguments [train] gives it. *)
Record DataLoader : Type := MkDataLoader {
  dl_dataset : Dataset;
  dl_batch_size : nat;
  dl_shuffle : bool
}.

(** Consecutive groups of [b] elements; [fuel] bounds the number of groups. *)
Fixpoint batched {A : Type} (fuel b : nat) (l : list A) : list (list A) :=
  match fuel, l with
  | O, _ | _, [] => []
  | S fuel', _ => take b l :: batched fuel' b (drop b l)
  end.

(** The batches one pass over the loader yields.  Without shuffling the
    sampler walks the indices [0 .. len-1] in ascending order; with
    shuffling it walks [permute] of them, the draw of the random generator. *)
Definition iter_batches (permute : list nat → list nat) (dl : DataLoader)
    : list (list (option Item)) :=
  let indices := seq 0 (len (dl_dataset dl)) in
  let order := if dl_shuffle dl then permute indices else indices in
  batched (length order) (dl_batch_size dl) (getitem (dl_dataset dl) <$> order).

End Datasets.
Global Arguments MultiplePrefixDataset : clear implicits.
Global Arguments Dataset : clear implicits.
Global Arguments DataLoader : clear implicits.

(** ** Effects *)

(** The calls the code makes into its collaborators, in program order.
    Each call is taken to succeed: a failure inside a collaborator (a write
    the file system refuses, a directory that cannot be read) is outside the
    model. *)
Inductive Event (Item : Type) : Type :=
| Mkdir (p : Path)
| SaveCheckpoint (p : Path) (state : Trainer)
| LoadDataset (dir : string) (batch_size : Z) (normalize_prefix : bool)
| BuildModel (m : Model)
| Print (msg : string)
| Fit (m : Model) (dl : DataLoader Item) (t : Trainer).
Global Arguments Mkdir {Item} p.
Global Arguments SaveCheckpoint {Item} p state.
Global Arguments LoadDataset {Item} dir batch_size normalize_prefix.
Global Arguments BuildModel {Item} m.
Global Arguments Print {Item} msg.
Global Arguments Fit {Item} m dl t.

(** A computation: the events it performed and how it ended.  An exception
    ends the computation where it is raised and keeps the events so far. *)
Definition M (Item A : Type) : Type := list (Event Item) * result A.

Definition events {Item A} (m : M Item A) : list (Event Item) := m.1.
Definition outcome {Item A} (m : M Item A) : result A := m.2.

Global Instance M_ret {Item} : MRet (M Item) := λ A a, ([], Ok a).
Global Instance M_bind {Item} : MBind (M Item) := λ A B f m,
  match m with
  | (tr, Ok a) => let '(tr', r) := f a in (tr ++ tr', r)
  | (tr, Raise e) => (tr, Raise e)
  end.

Definition raise {Item A} (e : exn) : M Item A := ([], Raise e).
Definition emit {Item} (ev : Event Item) : M Item unit := ([ev], Ok tt).
Definition lift {Item A} (r : result A) : M Item A := ([], r).

(** The checkpoint files a trace leaves behind, on top of those in [fs]:
    each save replaces whatever the path held. *)
Definition files {Item} (tr : list (Event Item)) (fs : gmap Path Trainer)
    : gmap Path Trainer :=
  foldl (λ fs ev, match ev with
                  | SaveCheckpoint p state => <[p := state]> fs
                  | _ => fs
                  end) fs tr.

(** ** CheckpointSaver *)

Record CheckpointSaver : Type := MkCheckpointSaver {
  output_path : Path;
  filename_prefix : string;
  save_every_n_epochs : Z;
  save_every_n_steps : option Z
}.

Section Callback.
Context {Item : Type}.
Local Abbreviation M := (M Item).

(** [trainer.save_checkpoint(path)]: the trainer's state goes to [path]. *)
Definition save_checkpoint (trainer : Trainer) (path : Path) : M unit :=
  emit (SaveCheckpoint path trainer).

(** [CheckpointSaver.__init__] *)
Definition CheckpointSaver_init (output_path : Path) (filename_prefix : string)
    (save_every_n_epochs : Z) (save_every_n_steps : option Z) : M CheckpointSaver :=
  emit (Mkdir output_path);;
  mret (MkCheckpointSaver output_path filename_prefix
          save_every_n_epochs save_every_n_steps).

Definition on_epoch_end (self : CheckpointSaver) (trainer : Trainer) : M unit :=
  let epoch := current_epoch trainer in
  r ← lift (mod_ epoch (save_every_n_epochs self));
  if decide (r = 0) then
    let output_path :=
      output_path self // (filename_prefix self +:+ "_epoch_" +:+ str epoch +:+ ".ckpt") in
    save_checkpoint trainer output_path
  else mret tt.

Definition on_batch_end (self : CheckpointSaver) (trainer : Trainer) : M unit :=
  match save_every_n_steps self with
  | Some n =>
      let current_step := global_step trainer in
      r ← lift (mod_ current_step n);
      if decide (r = 0) then
        let output_path := output_path self // (filename_prefix self +:+ "_latest.ckpt") in
        save_checkpoint trainer output_path
      else mret tt
  | None => mret tt
  end.

Definition save_final_checkpoint (self : CheckpointSaver) (trainer : Trainer) : M unit :=
  let output_path := output_path self // (filename_prefix self +:+ "_final.ckpt") in
  save_checkpoint trainer output_path.

(** The engine calls the callback's hook with the trainer whose counters it
    has just set; the trainer object is the same one throughout. *)
Definition call_hook (self : CheckpointSaver) (trainer : Trainer) (h : Hook)
    : M Trainer :=
  match h with
  | EpochEnd epoch step =>
      let trainer := set_counters trainer epoch step in
      on_epoch_end self trainer;; mret trainer
  | BatchEnd epoch step =>
      let trainer := set_counters trainer epoch step in
      on_batch_end self trainer;; mret trainer
  end.

(** A fit run as the callback sees it: the hooks in the order the engine
    fires them.  An exception in a hook ends the run. *)
Fixpoint run_hooks (self : CheckpointSaver) (trainer : Trainer) (hs : list Hook)
    : M Trainer :=
  match hs with
  | [] => mret trainer
  | h :: hs' => trainer ← call_hook self trainer h; run_hooks self trainer hs'
  end.

End Callback.

(** ** train *)

(** The arguments of [train]. *)
Record Config : Type := MkConfig {
  data_dir : string;
  output_dir : string;
  output_name_prefix : string;
  epochs : Z;
  save_every_epochs : Z;
  save_every_steps : option Z;
  scheduler_warmup_steps : Z;
  prefix_length : Z;
  prefix_size : Z;
  clip_prefix_length : Z;
  language_model_type : string;
  language_model_variant : string;
  batch_size : Z;
  prefix_only : bool;
  mapping_type : string;
  num_layers : Z;
  num_attention_heads : Z;
  normalize_prefix : bool;
  merge_datasets : bool;
  use_deepspeed : bool;
  use_16bit_precision : bool;
  gpu_devices : value;
  deepspeed_strategy : option string
}.

(** The collaborators [train] is run against. *)
Record World (Item : Type) : Type := MkWorld {
  (** the items [TokenPrefixDataset(dir, batch_size, normalize_prefix)] of
      dataset.py holds once it has read [dir] *)
  stored_items : string → Z → bool → list Item;
  (** the hooks [trainer.fit(model, dataloader)] fires, in order *)
  fit_hooks : Model → DataLoader Item → Trainer → list Hook
}.
Global Arguments stored_items {Item} w dir batch_size normalize_prefix.
Global Arguments fit_hooks {Item} w m dl t.

Section Orchestration.
Context {Item : Type} (world : World Item).
Local Abbreviation M := (M Item).

Definition TokenPrefixDataset (dir : string) (batch_size : Z) (normalize_prefix : bool)
    : M (list Item) :=
  emit (LoadDataset dir batch_size normalize_prefix);;
  mret (stored_items world dir batch_size normalize_prefix).

(** [for dir in data_dirs: datasets.append(TokenPrefixDataset(dir, ...))] *)
Fixpoint load_each (data_dirs : list string) (batch_size : Z) (normalize_prefix : bool)
    : M (list (list Item)) :=
  match data_dirs with
  | [] => mret []
  | dir :: rest =>
      d ← TokenPrefixDataset dir batch_size normalize_prefix;
      ds ← load_each rest batch_size normalize_prefix;
      mret (d :: ds)
  end.

(** Lines 67-85 of train.py, "Prepare training datasets". *)
Definition prepare_dataset (cfg : Config) : M (Dataset Item) :=
  if merge_datasets cfg then
    let data_dirs := split "," (data_dir cfg) in
    if (length data_dirs <? 2)%nat then
      raise (ValueError
        ("--merge_datasets was enabled, but less than 2 directories were specified." +:+
         String "010" "You can specify more than one data directory by comma seperating the --data_dir input."))
    else
      datasets ← load_each data_dirs (batch_size cfg) (normalize_prefix cfg);
      c ← lift (merge datasets);
      mret (Multiple c)
  else
    d ← TokenPrefixDataset (data_dir cfg) (batch_size cfg) (normalize_prefix cfg);
    mret (Single d).

(** Lines 111-113: the value handed to the engine as [gpus]. *)
Definition select_gpus (gpu_devices : value) : value :=
  if isinstance_int gpu_devices && ne_int gpu_devices (-1)
  then VList [gpu_devices]
  else gpu_devices.

(** [trainer.fit(model, dataloader)] with [callbacks=[checkpoint_saver]]. *)
Definition fit (checkpoint_saver : CheckpointSaver) (trainer : Trainer)
    (model : Model) (dataloader : DataLoader Item) : M Trainer :=
  emit (Fit model dataloader trainer);;
  run_hooks checkpoint_saver trainer (fit_hooks world model dataloader trainer).

Definition train (cfg : Config) : M unit :=
  dataset ← prepare_dataset cfg;
  let total_steps := Z.of_nat (len dataset) * epochs cfg in
  let model_kwargs :=
    MkModelKwargs (language_model_type cfg) (language_model_variant cfg)
      (prefix_length cfg) (clip_prefix_length cfg) (prefix_size cfg)
      (num_layers cfg) (num_attention_heads cfg) (mapping_type cfg)
      (scheduler_warmup_steps cfg) total_steps (use_deepspeed cfg) in
  model ←
    (if prefix_only cfg then
       let model := CLIPCaptionPrefixOnly model_kwargs in
       emit (BuildModel model);;
       emit (Print "Train only Prefix.");;
       mret model
     else
       let model := CLIPCaptionModel model_kwargs in
       emit (BuildModel model);;
       emit (Print "Train both Prefix and Language Model.");;
       mret model);
  let gpu_devices := select_gpus (gpu_devices cfg) in
  checkpoint_saver ←
    CheckpointSaver_init (Path_of (output_dir cfg)) (output_name_prefix cfg)
      (save_every_epochs cfg) (save_every_steps cfg);
  let dataloader := MkDataLoader dataset 1 false in
  let trainer :=
    MkTrainer gpu_devices (epochs cfg) (deepspeed_strategy cfg)
      (if use_16bit_precision cfg then 16 else 32) 0 0 in
  trainer ← fit checkpoint_saver trainer model dataloader;
  save_final_checkpoint checkpoint_saver trainer.

End Orchestration.

(** ** Observations on traces *)

Definition kwargs_of (m : Model) : ModelKwargs :=
  match m with
  | CLIPCaptionModel kw | CLIPCaptionPrefixOnly kw => kw
  end.

Section Observations.
Context {Item : Type}.
Implicit Types (tr : list (Event Item)).

(** The directories whose datasets were loaded, in order. *)
Definition loaded_dirs tr : list string :=
  omap (λ ev, match ev with LoadDataset dir _ _ => Some dir | _ => None end) tr.

(** The models constructed. *)
Definition built_models tr : list Model :=
  omap (λ ev, match ev with BuildModel m => Some m | _ => None end) tr.

(** What the engine was started with. *)
Definition fit_calls tr : list (Model * DataLoader Item * Trainer) :=
  omap (λ ev, match ev with Fit m dl t => Some (m, dl, t) | _ => None end) tr.

(** The states saved to path [p], in order. *)
Definition saved_to (p : Path) tr : list Trainer :=
  omap (λ ev, match ev with
              | SaveCheckpoint q state => if decide (q = p) then Some state else None
              | _ => None
              end) tr.

(** The events a hook of the saver [self] can produce: a save to an epoch
    file or to the latest file. *)
Definition hook_event (self : CheckpointSaver) (ev : Event Item) : Prop :=
  ∃ state,
    (∃ e, ev = SaveCheckpoint
               (output_path self // (filename_prefix self +:+ "_epoch_" +:+ str e +:+ ".ckpt"))
               state)
    ∨ ev = SaveCheckpoint (output_path self // (filename_prefix self +:+ "_latest.ckpt")) state.

End Observations.

(** ** Sample inputs *)

Definition sample_saver (ne : Z) (ns : option Z) : CheckpointSaver :=
  MkCheckpointSaver (Path_of "./models/") "demo" ne ns.

Definition sample_trainer (epoch step : Z) : Trainer :=
  MkTrainer (VStr "0") 3 None 16 epoch step.

(** Directory A holds 100 items, directory B 50; the engine runs three
    epochs and fires the step-end hook at a few of the steps. *)
Definition sample_world : World nat :=
  MkWorld nat
    (λ dir _ _, if decide (dir = "A") then seq 0 100
                else if decide (dir = "B") then seq 100 50 else [])
    (λ _ _ _, [BatchEnd 0 0; BatchEnd 0 1; EpochEnd 0 150;
               BatchEnd 1 150; EpochEnd 1 300;
               BatchEnd 2 300; EpochEnd 2 450]).

Definition sample_config (data_dir : string) (merge_datasets : bool)
    (save_every_epochs : Z) (save_every_steps : option Z) (gpu_devices : value) : Config :=
  MkConfig data_dir "./models/" "demo" 3 save_every_epochs save_every_steps
    500 10 768 10 "gpt2" "gpt2-xl" 256 false "transformer" 8 8 false
    merge_datasets false true gpu_devices None.

(** * Properties *)

(** ** The composite dataset *)

Section DatasetFacts.
Context {Item : Type}.
Implicit Types (ms : list (list Item)) (i j k off start : nat).

(** Number of items in the members before position [j]. *)
Local Abbreviation offset_of ms j := (sum_list (length <$> take j ms)).

Lemma cumulative_last ms start :
  last (cumulative start ms) =
    match ms with
    | [] => None
    | _ => Some (start + sum_list (length <$> ms))%nat
    end.
Proof.
  revert start. induction ms as [|m ms IH]; intros start; [done|].
  simpl. rewrite last_cons, IH. destruct ms; simpl; f_equal; lia.
Qed.

Lemma locate_spec ms k start i :
  (start ≤ i < start + sum_list (length <$> ms))%nat →
  ∃ j off m, locate (cumulative start ms) k start i = Some ((k + j)%nat, off)
    ∧ ms !! j = Some m ∧ (off < length m)%nat
    ∧ i = (start + offset_of ms j + off)%nat.
Proof.
  revert k start. induction ms as [|m ms IH]; intros k start Hi; csimpl in *; [lia|].
  destruct (Nat.ltb_spec i (start + length m)) as [Hlt|Hge].
  - exists 0%nat, (i - start)%nat, m. rewrite Nat.add_0_r.
    simpl. split_and!; try done; lia.
  - destruct (IH (S k) (start + length m)%nat)
      as (j & off & m' & Hloc & Hm & Hoff & Heq); [lia|].
    exists (S j), off, m'. rewrite Hloc.
    replace (S k + j)%nat with (k + S j)%nat by lia.
    csimpl. split_and!; [done|done|done|lia].
Qed.

Lemma offset_of_mono ms j j' m :
  ms !! j = Some m → (j < j')%nat →
  (offset_of ms j + length m ≤ offset_of ms j')%nat.
Proof.
  revert j j'. induction ms as [|m0 ms IH]; intros j j' Hm Hlt; [done|].
  destruct j' as [|j']; [lia|]. destruct j as [|j]; csimpl in *.
  - injection Hm as ->. lia.
  - specialize (IH j j' Hm). lia.
Qed.

Lemma owner_unique ms j off m j' off' m' :
  ms !! j = Some m → (off < length m)%nat →
  ms !! j' = Some m' → (off' < length m')%nat →
  (offset_of ms j + off = offset_of ms j' + off')%nat →
  j = j' ∧ off = off'.
Proof.
  intros Hm Hoff Hm' Hoff' Heq.
  destruct (Nat.lt_trichotomy j j') as [Hlt|[->|Hgt]].
  - pose proof (offset_of_mono ms j j' m Hm Hlt). lia.
  - split; [done|lia].
  - pose proof (offset_of_mono ms j' j m' Hm' Hgt). lia.
Qed.

Lemma concat_lookup_offset ms j off m :
  ms !! j = Some m → (off < length m)%nat →
  concat ms !! (offset_of ms j + off)%nat = m !! off.
Proof.
  revert j. induction ms as [|m0 ms IH]; intros j Hm Hoff; [done|].
  destruct j as [|j]; csimpl in *.
  - injection Hm as ->. by rewrite lookup_app_l.
  - rewrite lookup_app_r by lia.
    replace (length m0 + offset_of ms j + off - length m0)%nat
      with (offset_of ms j + off)%nat by lia.
    by apply IH.
Qed.

Lemma merge_Ok ms :
  (2 ≤ length ms)%nat → merge ms = Ok (MkMultiple ms (cumulative 0 ms)).
Proof.
  intros Hlen. unfold merge.
  destruct (Nat.ltb_spec (length ms) 2); [lia|done].
Qed.

Lemma multiple_len_sum ms :
  multiple_len (MkMultiple ms (cumulative 0 ms)) = sum_list (length <$> ms).
Proof.
  unfold multiple_len. simpl. rewrite cumulative_last. by destruct ms.
Qed.

(** Reading a merged dataset by global index reads the concatenation of the
    members. *)
Lemma multiple_getitem_concat ms i :
  (i < sum_list (length <$> ms))%nat →
  multiple_getitem (MkMultiple ms (cumulative 0 ms)) i = concat ms !! i.
Proof.
  intros Hi. unfold multiple_getitem, resolve. simpl.
  destruct (locate_spec ms 0 0 i) as (j & off & m & -> & Hm & Hoff & ->); [lia|].
  simpl. rewrite Hm. simpl. symmetry. by apply concat_lookup_offset.
Qed.

(** C7: a composite dataset built from two or more members has the sum of
    the member lengths as its length, and every global index below that sum
    resolves, through the boundaries fixed at construction, to exactly one
    owning member and a local offset inside it; retrieval reads that item.
    For members of lengths 100 and 50 the length is 150 and index 120 is
    local index 20 of the second member. *)
Theorem composite_length_and_resolution (datasets : list (list Item)) :
  (2 ≤ length datasets)%nat →
  ∃ c, merge datasets = Ok c
    ∧ members c = datasets
    ∧ multiple_len c = sum_list (length <$> datasets)
    ∧ (∀ i, (i < sum_list (length <$> datasets))%nat →
        ∃ k off m,
          resolve c i = Some (k, off)
          ∧ datasets !! k = Some m ∧ (off < length m)%nat
          ∧ i = (sum_list (length <$> take k datasets) + off)%nat
          ∧ multiple_getitem c i = m !! off
          ∧ ∀ k' off' m',
              datasets !! k' = Some m' → (off' < length m')%nat →
              i = (sum_list (length <$> take k' datasets) + off')%nat →
              k' = k ∧ off' = off)
    ∧ (length <$> datasets = [100; 50]%nat →
        multiple_len c = 150%nat ∧ resolve c 120 = Some (1, 20)%nat).
Proof.
  intros Hlen. eexists. split; [by apply merge_Ok|].
  split; [done|]. split; [apply multiple_len_sum|]. split.
  - intros i Hi. unfold multiple_getitem, resolve. simpl.
    destruct (locate_spec datasets 0 0 i) as (j & off & m & -> & Hm & Hoff & Heq); [lia|].
    exists j, off, m. simpl. rewrite Hm. simpl.
    split_and!; [done|done|done|lia|done|].
    intros k' off' m' Hm' Hoff' Heq'.
    apply (owner_unique datasets k' off' m' j off m); try done. lia.
  - intros Hlens. rewrite multiple_len_sum, Hlens. split; [done|].
    unfold resolve. simpl.
    destruct datasets as [|a [|b [|? ?]]]; try done.
    injection Hlens as Ha Hb. simpl. by rewrite Ha, Hb.
Qed.

End DatasetFacts.

(** C7, on two concrete members of 100 and 50 items. *)
Lemma composite_length_and_resolution_witness :
  ∃ c, merge [seq 0 100; seq 100 50] = Ok c
    ∧ multiple_len c = 150%nat
    ∧ resolve c 120 = Some (1, 20)%nat
    ∧ multiple_getitem c 120 = Some 120%nat.
Proof.
  destruct (composite_length_and_resolution [seq 0 100; seq 100 50])
    as (c & Hc & _ & _ & Hres & Hex); [simpl; lia|].
  exists c. destruct Hex as [Hl Hr]; [reflexivity|].
  split_and!; [done|done|done|].
  destruct (Hres 120%nat) as (k & off & m & Hk & Hm & _ & _ & -> & _); [simpl; lia|].
  rewrite Hr in Hk. injection Hk as <- <-. simpl in Hm. injection Hm as <-.
  reflexivity.
Defined.


(** ** Strings, paths and files *)

Lemma str_inj (a b : Z) : str a = str b → a = b.
Proof. unfold str. apply (inj pretty). Qed.

Lemma append_inv_head (s t1 t2 : string) : s +:+ t1 = s +:+ t2 → t1 = t2.
Proof. induction s as [|c s IH]; simpl; [done|]. intros [=]. auto. Qed.

Lemma length_append (s t : string) :
  String.length (s +:+ t) = (String.length s + String.length t)%nat.
Proof. induction s as [|c s IH]; simpl; [done|]. by rewrite IH. Qed.

Lemma append_inv_tail (s1 s2 t : string) : s1 +:+ t = s2 +:+ t → s1 = s2.
Proof.
  intros Heq.
  assert (String.length s1 = String.length s2) as Hlen.
  { apply (f_equal String.length) in Heq. rewrite !length_append in Heq. lia. }
  revert s2 Heq Hlen. induction s1 as [|c s1 IH]; intros [|c' s2] Heq Hlen;
    simpl in *; try done.
  injection Heq as -> Heq. f_equal. apply IH; [done|lia].
Qed.

Lemma Path_div_inj (p : Path) (s1 s2 : string) : p // s1 = p // s2 → s1 = s2.
Proof.
  unfold Path_div. intros [= Heq]. apply app_inv_head in Heq. by injection Heq.
Qed.

Section Files.
Context {Item : Type}.
Implicit Types (tr : list (Event Item)) (fs : gmap Path Trainer).

Lemma files_app tr1 tr2 fs : files (tr1 ++ tr2) fs = files tr2 (files tr1 fs).
Proof. unfold files. apply foldl_app. Qed.

Lemma files_cons (ev : Event Item) tr fs :
  files (ev :: tr) fs = files tr (files [ev] fs).
Proof. done. Qed.

Lemma files_save p state fs :
  files [SaveCheckpoint (Item:=Item) p state] fs = <[p := state]> fs.
Proof. done. Qed.

End Files.

(** ** The callback *)

Section CallbackFacts.
Context {Item : Type}.
Implicit Types (self : CheckpointSaver) (trainer : Trainer).

Lemma on_epoch_end_save self trainer :
  save_every_n_epochs self ≠ 0 →
  current_epoch trainer `mod` save_every_n_epochs self = 0 →
  on_epoch_end (Item:=Item) self trainer =
    ([SaveCheckpoint
        (output_path self //
           (filename_prefix self +:+ "_epoch_" +:+ str (current_epoch trainer) +:+ ".ckpt"))
        trainer], Ok tt).
Proof.
  intros Hne Hmod. unfold on_epoch_end, mod_.
  destruct (decide (save_every_n_epochs self = 0)) as [|_]; [done|].
  simpl. by destruct (decide _).
Qed.

Lemma on_epoch_end_skip self trainer :
  save_every_n_epochs self ≠ 0 →
  current_epoch trainer `mod` save_every_n_epochs self ≠ 0 →
  on_epoch_end (Item:=Item) self trainer = ([], Ok tt).
Proof.
  intros Hne Hmod. unfold on_epoch_end, mod_.
  destruct (decide (save_every_n_epochs self = 0)) as [|_]; [done|].
  simpl. by destruct (decide _).
Qed.

Lemma on_epoch_end_zero self trainer :
  save_every_n_epochs self = 0 →
  on_epoch_end (Item:=Item) self trainer = ([], Raise ZeroDivisionError).
Proof.
  intros Hz. unfold on_epoch_end, mod_.
  by destruct (decide (save_every_n_epochs self = 0)).
Qed.

Lemma on_batch_end_save self trainer n :
  save_every_n_steps self = Some n → n ≠ 0 →
  global_step trainer `mod` n = 0 →
  on_batch_end (Item:=Item) self trainer =
    ([SaveCheckpoint (output_path self // (filename_prefix self +:+ "_latest.ckpt"))
        trainer], Ok tt).
Proof.
  intros Hn Hne Hmod. unfold on_batch_end, mod_. rewrite Hn.
  destruct (decide (n = 0)) as [|_]; [done|].
  simpl. by destruct (decide _).
Qed.

Lemma on_batch_end_skip self trainer n :
  save_every_n_steps self = Some n → n ≠ 0 →
  global_step trainer `mod` n ≠ 0 →
  on_batch_end (Item:=Item) self trainer = ([], Ok tt).
Proof.
  intros Hn Hne Hmod. unfold on_batch_end, mod_. rewrite Hn.
  destruct (decide (n = 0)) as [|_]; [done|].
  simpl. by destruct (decide _).
Qed.

Lemma on_batch_end_zero self trainer :
  save_every_n_steps self = Some 0 →
  on_batch_end (Item:=Item) self trainer = ([], Raise ZeroDivisionError).
Proof. intros Hn. unfold on_batch_end, mod_. by rewrite Hn. Qed.

Lemma on_batch_end_unset self trainer :
  save_every_n_steps self = None →
  on_batch_end (Item:=Item) self trainer = ([], Ok tt).
Proof. intros Hn. unfold on_batch_end. by rewrite Hn. Qed.

End CallbackFacts.

Section RunFacts.
Context {Item : Type}.
Implicit Types (self : CheckpointSaver) (trainer : Trainer) (fs : gmap Path Trainer).

(** Saves to one path: the file holds the last state saved, if any. *)
Lemma files_saves_last p (states : list Trainer) fs :
  files (SaveCheckpoint (Item:=Item) p <$> states) fs !! p =
    match last states with
    | Some state => Some state
    | None => fs !! p
    end.
Proof.
  revert fs. induction states as [|x states IH]; intros fs; [done|].
  csimpl. change (files (SaveCheckpoint p x :: (SaveCheckpoint p <$> states)) fs)
    with (files (SaveCheckpoint p <$> states) (<[p := x]> fs)).
  rewrite IH, last_cons. destruct (last states); [done|]. apply lookup_insert_eq.
Qed.

(** A run of step-end hooks with the step cadence set to a non-zero [n]:
    it saves the latest snapshot at exactly the qualifying steps. *)
Lemma run_batch_ends self n trainer (steps : list (Z * Z)) :
  save_every_n_steps self = Some n → n ≠ 0 →
  events (run_hooks (Item:=Item) self trainer ((λ es, BatchEnd es.1 es.2) <$> steps)) =
    SaveCheckpoint (output_path self // (filename_prefix self +:+ "_latest.ckpt"))
      <$> ((λ es, set_counters trainer es.1 es.2)
             <$> filter (λ es, es.2 `mod` n = 0) steps).
Proof.
  intros Hn Hne. revert trainer.
  induction steps as [|[e s] steps IH]; intros trainer; [done|].
  csimpl. rewrite filter_cons. simpl.
  specialize (IH (set_counters trainer e s)).
  destruct (run_hooks self (set_counters trainer e s) _) as [tr r] eqn:Hrun.
  simpl in IH. subst tr.
  destruct (decide (s `mod` n = 0)) as [Hq|Hq].
  - rewrite (on_batch_end_save self _ n) by done. simpl.
    rewrite Hrun. simpl. f_equal.
  - rewrite (on_batch_end_skip self _ n) by done. simpl.
    by rewrite Hrun.
Qed.

Lemma run_batch_ends_unset self trainer (steps : list (Z * Z)) :
  save_every_n_steps self = None →
  events (run_hooks (Item:=Item) self trainer ((λ es, BatchEnd es.1 es.2) <$> steps)) = [].
Proof.
  intros Hn. revert trainer.
  induction steps as [|[e s] steps IH]; intros trainer; [done|].
  csimpl. rewrite on_batch_end_unset by done. simpl.
  specialize (IH (set_counters trainer e s)).
  destruct (run_hooks self (set_counters trainer e s) _) as [tr r]. by simpl in *.
Qed.

(** In a list sorted by step, the last element that satisfies [P] has the
    greatest step among those that do. *)
Lemma last_filter_greatest (P : Z * Z → Prop) `{!∀ x, Decision (P x)}
    (steps : list (Z * Z)) (x : Z * Z) :
  StronglySorted Z.le (snd <$> steps) →
  last (filter P steps) = Some x →
  ∀ y, y ∈ steps → P y → y.2 ≤ x.2.
Proof.
  induction steps as [|a steps IH]; intros Hs Hlast y Hy HPy.
  - by apply elem_of_nil in Hy.
  - csimpl in Hs. apply StronglySorted_inv in Hs as [Hs Hall].
    apply elem_of_cons in Hy as [->|Hy].
    + rewrite filter_cons_True, last_cons in Hlast by done.
      destruct (last (filter P steps)) as [z|] eqn:Hz.
      * injection Hlast as ->. apply last_Some_elem_of in Hz.
        apply list_elem_of_filter in Hz as [_ Hz].
        rewrite Forall_forall in Hall. apply Hall.
        by apply list_elem_of_fmap_2.
      * injection Hlast as ->. lia.
    + assert (is_Some (last (filter P steps))) as [z Hz].
      { apply last_is_Some. intros Hnil.
        assert (y ∈ filter P steps) as Hin by by apply list_elem_of_filter.
        rewrite Hnil in Hin. by apply elem_of_nil in Hin. }
      apply IH; [done| |done|done].
      rewrite filter_cons in Hlast. destruct (decide (P a)); [|done].
      rewrite last_cons, Hz in Hlast. by rewrite Hz.
Qed.

End RunFacts.

Section EpochRun.
Context {Item : Type}.
Implicit Types (self : CheckpointSaver) (trainer : Trainer) (fs : gmap Path Trainer).

(** A run of epoch-end hooks with a non-zero epoch cadence: it saves one
    epoch file at each qualifying epoch. *)
Lemma run_epoch_ends self trainer (eps : list (Z * Z)) :
  save_every_n_epochs self ≠ 0 →
  events (run_hooks (Item:=Item) self trainer ((λ es, EpochEnd es.1 es.2) <$> eps)) =
    (λ es, SaveCheckpoint
             (output_path self //
                (filename_prefix self +:+ "_epoch_" +:+ str es.1 +:+ ".ckpt"))
             (set_counters trainer es.1 es.2))
      <$> filter (λ es, es.1 `mod` save_every_n_epochs self = 0) eps.
Proof.
  intros Hne. revert trainer.
  induction eps as [|[e s] eps IH]; intros trainer; [done|].
  csimpl. rewrite filter_cons. simpl.
  specialize (IH (set_counters trainer e s)).
  destruct (run_hooks self (set_counters trainer e s) _) as [tr r] eqn:Hrun.
  simpl in IH. subst tr.
  destruct (decide (e `mod` save_every_n_epochs self = 0)) as [Hq|Hq].
  - rewrite on_epoch_end_save by done. simpl. by rewrite Hrun.
  - rewrite on_epoch_end_skip by done. simpl. by rewrite Hrun.
Qed.

(** Saves to paths [name e], for an injective [name]: the file of an epoch
    that does not occur keeps its content, the file of an epoch that occurs
    once holds the state saved for it. *)
Lemma files_keyed_other (name : Z → Path) (st : Z * Z → Trainer)
    (l : list (Z * Z)) fs e :
  Inj (=) (=) name → e ∉ l.*1 →
  files ((λ es, SaveCheckpoint (Item:=Item) (name es.1) (st es)) <$> l) fs !! name e
  = fs !! name e.
Proof.
  intros Hinj. revert fs. induction l as [|[e' s'] l IH]; intros fs Hnotin; [done|].
  rewrite fmap_cons in Hnotin. apply not_elem_of_cons in Hnotin as [Hne Hnotin].
  rewrite fmap_cons, files_cons, IH, files_save by done. apply lookup_insert_ne. intros Heq. by apply Hinj in Heq.
Qed.

Lemma files_keyed_once (name : Z → Path) (st : Z * Z → Trainer)
    (l : list (Z * Z)) fs e s :
  Inj (=) (=) name → NoDup l.*1 → (e, s) ∈ l →
  files ((λ es, SaveCheckpoint (Item:=Item) (name es.1) (st es)) <$> l) fs !! name e
  = Some (st (e, s)).
Proof.
  intros Hinj. revert fs. induction l as [|[e' s'] l IH]; intros fs Hnodup Hin.
  { by apply elem_of_nil in Hin. }
  rewrite fmap_cons in Hnodup. apply NoDup_cons in Hnodup as [Hfresh Hnodup].
  rewrite fmap_cons, files_cons.
  apply elem_of_cons in Hin as [[= -> ->]|Hin].
  - rewrite files_keyed_other, files_save by done. apply lookup_insert_eq.
  - by apply IH.
Qed.

Lemma NoDup_filter_fst (P : Z * Z → Prop) `{!∀ x, Decision (P x)} (l : list (Z * Z)) :
  NoDup l.*1 → NoDup (filter P l).*1.
Proof.
  induction l as [|x l IH]; [done|].
  rewrite fmap_cons, NoDup_cons. intros [Hfresh Hnodup].
  rewrite filter_cons. destruct (decide (P x)); [|by apply IH].
  rewrite fmap_cons, NoDup_cons. split; [|by apply IH].
  intros (y & Hy & [_ Hin]%list_elem_of_filter)%list_elem_of_fmap.
  apply Hfresh. rewrite Hy. by apply list_elem_of_fmap_2.
Qed.

End EpochRun.

Section CallbackClaims.
Context {Item : Type}.
Implicit Types (self : CheckpointSaver) (trainer : Trainer) (fs : gmap Path Trainer).

(** C2: with a positive epoch cadence, the epoch-end handler writes a
    checkpoint exactly when the epoch is a multiple of the cadence; the
    file is [{prefix}_epoch_{E}.ckpt], different epochs have different
    files, and a save for one epoch leaves the file of every other epoch
    as it was: after a run of epoch-end events over distinct epochs, the
    file of each qualifying epoch still holds the state saved at that
    epoch. *)
Theorem epoch_checkpoint_cadence self trainer :
  0 < save_every_n_epochs self →
  let E := current_epoch trainer in
  let epoch_file (e : Z) :=
    output_path self // (filename_prefix self +:+ "_epoch_" +:+ str e +:+ ".ckpt") in
  (E `mod` save_every_n_epochs self = 0 →
     on_epoch_end (Item:=Item) self trainer =
       ([SaveCheckpoint (epoch_file E) trainer], Ok tt))
  ∧ (E `mod` save_every_n_epochs self ≠ 0 →
     on_epoch_end (Item:=Item) self trainer = ([], Ok tt))
  ∧ (∀ E1 E2, epoch_file E1 = epoch_file E2 → E1 = E2)
  ∧ (∀ fs E', E' ≠ E →
       files (events (on_epoch_end (Item:=Item) self trainer)) fs !! epoch_file E'
       = fs !! epoch_file E')
  ∧ (∀ (eps : list (Z * Z)) fs e s,
       NoDup eps.*1 → (e, s) ∈ eps → e `mod` save_every_n_epochs self = 0 →
       files (events (run_hooks (Item:=Item) self trainer
                        ((λ es, EpochEnd es.1 es.2) <$> eps))) fs !! epoch_file e
       = Some (set_counters trainer e s)).
Proof.
  intros Hpos E epoch_file.
  assert (∀ E1 E2, epoch_file E1 = epoch_file E2 → E1 = E2) as Hinj.
  { intros E1 E2 Heq. apply Path_div_inj in Heq.
    do 2 apply append_inv_head in Heq. apply append_inv_tail in Heq.
    by apply str_inj. }
  split_and!; [| |done| |].
  - intros Hmod. apply on_epoch_end_save; [lia|done].
  - intros Hmod. apply on_epoch_end_skip; [lia|done].
  - intros fs E' Hne. destruct (decide (E `mod` save_every_n_epochs self = 0)).
    + rewrite on_epoch_end_save by (done || lia).
      unfold events. cbn [fst]. rewrite files_save.
      apply lookup_insert_ne. intros Heq. by apply Hinj in Heq.
    + rewrite on_epoch_end_skip by (done || lia). done.
  - intros eps fs e s Hnodup Hin Hmod. rewrite run_epoch_ends by lia.
    apply (files_keyed_once epoch_file (λ es, set_counters trainer es.1 es.2)
             (filter (λ es, es.1 `mod` save_every_n_epochs self = 0) eps) fs e s).
    + exact Hinj.
    + by apply NoDup_filter_fst.
    + by apply list_elem_of_filter.
Qed.

(** C3: with the step cadence set (and not zero), the step-end handler
    writes [{prefix}_latest.ckpt] exactly when the global step is a
    multiple of the cadence, replacing what the file held; after any
    sequence of step-end events the file holds the state of the last
    qualifying step, which is the greatest qualifying step when the global
    step never decreases.  With the step cadence unset nothing is written. *)
Theorem latest_checkpoint_cadence self :
  (∀ n, save_every_n_steps self = Some n → n ≠ 0 →
     let latest := output_path self // (filename_prefix self +:+ "_latest.ckpt") in
     (∀ trainer, global_step trainer `mod` n = 0 →
        on_batch_end (Item:=Item) self trainer = ([SaveCheckpoint latest trainer], Ok tt))
     ∧ (∀ trainer, global_step trainer `mod` n ≠ 0 →
        on_batch_end (Item:=Item) self trainer = ([], Ok tt))
     ∧ (∀ trainer fs, global_step trainer `mod` n = 0 →
        files (events (on_batch_end (Item:=Item) self trainer)) fs !! latest = Some trainer)
     ∧ (∀ trainer (steps : list (Z * Z)) fs,
        let run :=
          run_hooks (Item:=Item) self trainer ((λ es, BatchEnd es.1 es.2) <$> steps) in
        let qualifying := filter (λ es, es.2 `mod` n = 0) steps in
        files (events run) fs !! latest =
          match last qualifying with
          | Some es => Some (set_counters trainer es.1 es.2)
          | None => fs !! latest
          end
        ∧ (StronglySorted Z.le (snd <$> steps) →
           ∀ es, last qualifying = Some es →
           ∀ es', es' ∈ steps → es'.2 `mod` n = 0 → es'.2 ≤ es.2)))
  ∧ (save_every_n_steps self = None →
     (∀ trainer, on_batch_end (Item:=Item) self trainer = ([], Ok tt))
     ∧ (∀ trainer (steps : list (Z * Z)),
        events (run_hooks (Item:=Item) self trainer
                  ((λ es, BatchEnd es.1 es.2) <$> steps)) = [])).
Proof.
  split.
  - intros n Hn Hne latest. split_and!.
    + intros trainer Hmod. by apply (on_batch_end_save self trainer n).
    + intros trainer Hmod. by apply (on_batch_end_skip self trainer n).
    + intros trainer fs Hmod. rewrite (on_batch_end_save self trainer n) by done.
      unfold events. cbn [fst]. rewrite files_save. apply lookup_insert_eq.
    + intros trainer steps fs run qualifying. split.
      * unfold run. rewrite (run_batch_ends self n) by done.
        rewrite files_saves_last, fmap_last. fold qualifying.
        by destruct (last qualifying).
      * intros Hsorted es Hlast es' Hin Hq.
        by apply (last_filter_greatest (λ es, es.2 `mod` n = 0) steps es).
  - intros Hn. split.
    + intros trainer. by apply on_batch_end_unset.
    + intros trainer steps. by apply run_batch_ends_unset.
Qed.

(** C8: the constructor stores whatever cadences it is given.  With
    cadences of at least 1 the two handlers return normally on every
    trainer state; with an epoch cadence (a step cadence) of 0 the
    epoch-end (step-end) handler raises [ZeroDivisionError] on every state,
    so a run fails at the first such hook the engine fires. *)
Theorem cadence_precondition :
  (∀ p prefix ne ns,
     CheckpointSaver_init (Item:=Item) p prefix ne ns =
       ([Mkdir p], Ok (MkCheckpointSaver p prefix ne ns)))
  ∧ (∀ self trainer, 1 ≤ save_every_n_epochs self →
       outcome (on_epoch_end (Item:=Item) self trainer) = Ok tt)
  ∧ (∀ self trainer, (∀ n, save_every_n_steps self = Some n → 1 ≤ n) →
       outcome (on_batch_end (Item:=Item) self trainer) = Ok tt)
  ∧ (∀ self trainer, save_every_n_epochs self = 0 →
       on_epoch_end (Item:=Item) self trainer = ([], Raise ZeroDivisionError)
       ∧ ∀ e s hs, run_hooks (Item:=Item) self trainer (EpochEnd e s :: hs)
                   = ([], Raise ZeroDivisionError))
  ∧ (∀ self trainer, save_every_n_steps self = Some 0 →
       on_batch_end (Item:=Item) self trainer = ([], Raise ZeroDivisionError)
       ∧ ∀ e s hs, run_hooks (Item:=Item) self trainer (BatchEnd e s :: hs)
                   = ([], Raise ZeroDivisionError)).
Proof.
  split_and!.
  - done.
  - intros self trainer Hge.
    destruct (decide (current_epoch trainer `mod` save_every_n_epochs self = 0)).
    + by rewrite on_epoch_end_save by (done || lia).
    + by rewrite on_epoch_end_skip by (done || lia).
  - intros self trainer Hge. destruct (save_every_n_steps self) as [n|] eqn:Hn.
    + specialize (Hge n eq_refl).
      destruct (decide (global_step trainer `mod` n = 0)).
      * by rewrite (on_batch_end_save self trainer n) by (done || lia).
      * by rewrite (on_batch_end_skip self trainer n) by (done || lia).
    + by rewrite on_batch_end_unset.
  - intros self trainer Hz. split; [by apply on_epoch_end_zero|].
    intros e s hs. simpl. by rewrite on_epoch_end_zero.
  - intros self trainer Hz. split; [by apply on_batch_end_zero|].
    intros e s hs. simpl. by rewrite on_batch_end_zero.
Qed.

(** C9: at epoch 0 the epoch-end handler writes [{prefix}_epoch_0.ckpt]
    for every positive epoch cadence, and at global step 0 the step-end
    handler writes the latest snapshot for every step cadence that is set
    (and not zero), however large the cadence. *)
Theorem start_boundary_checkpoints self trainer :
  (0 < save_every_n_epochs self → current_epoch trainer = 0 →
     on_epoch_end (Item:=Item) self trainer =
       ([SaveCheckpoint (output_path self // (filename_prefix self +:+ "_epoch_0.ckpt"))
           trainer], Ok tt))
  ∧ (∀ n, save_every_n_steps self = Some n → n ≠ 0 → global_step trainer = 0 →
     on_batch_end (Item:=Item) self trainer =
       ([SaveCheckpoint (output_path self // (filename_prefix self +:+ "_latest.ckpt"))
           trainer], Ok tt)).
Proof.
  split.
  - intros Hpos Hzero. rewrite on_epoch_end_save; [by rewrite Hzero|lia|by rewrite Hzero].
  - intros n Hn Hne Hzero. apply (on_batch_end_save self trainer n); [done|done|].
    by rewrite Hzero.
Qed.

End CallbackClaims.

(** C2 on a saver with epoch cadence 2: at epochs 4 and 5, and over the
    epochs 0, 1, 2. *)
Lemma epoch_checkpoint_cadence_witness :
  0 < save_every_n_epochs (sample_saver 2 None)
  ∧ on_epoch_end (Item:=unit) (sample_saver 2 None) (sample_trainer 4 40) =
      ([SaveCheckpoint (MkPath ["./models/"; "demo_epoch_4.ckpt"]) (sample_trainer 4 40)],
       Ok tt)
  ∧ on_epoch_end (Item:=unit) (sample_saver 2 None) (sample_trainer 5 50) = ([], Ok tt)
  ∧ files (events (run_hooks (Item:=unit) (sample_saver 2 None) (sample_trainer 0 0)
                     [EpochEnd 0 10; EpochEnd 1 20; EpochEnd 2 30]))
      ∅ !! MkPath ["./models/"; "demo_epoch_0.ckpt"] = Some (sample_trainer 0 10).
Proof.
  split; [reflexivity|]. split_and!.
  - destruct (epoch_checkpoint_cadence (Item:=unit) (sample_saver 2 None) (sample_trainer 4 40))
      as (Hsave & _); [reflexivity|].
    apply Hsave. reflexivity.
  - destruct (epoch_checkpoint_cadence (Item:=unit) (sample_saver 2 None) (sample_trainer 5 50))
      as (_ & Hskip & _); [reflexivity|].
    apply Hskip. discriminate.
  - destruct (epoch_checkpoint_cadence (Item:=unit) (sample_saver 2 None) (sample_trainer 0 0))
      as (_ & _ & _ & _ & Hrun); [reflexivity|].
    apply (Hrun [(0, 10); (1, 20); (2, 30)] ∅ 0 10).
    + compute_done.
    + compute_done.
    + reflexivity.
Defined.

(** C3 on a saver with step cadence 5 and the steps 3, 5, 7, 10, 11. *)
Lemma latest_checkpoint_cadence_witness :
  files (events (run_hooks (Item:=unit) (sample_saver 1 (Some 5)) (sample_trainer 0 0)
                   [BatchEnd 0 3; BatchEnd 0 5; BatchEnd 0 7; BatchEnd 1 10; BatchEnd 1 11]))
    ∅ !! MkPath ["./models/"; "demo_latest.ckpt"] = Some (sample_trainer 1 10)
  ∧ (∀ es', es' ∈ [(0, 3); (0, 5); (0, 7); (1, 10); (1, 11)] → es'.2 `mod` 5 = 0 → es'.2 ≤ 10)
  ∧ events (run_hooks (Item:=unit) (sample_saver 1 None) (sample_trainer 0 0)
              [BatchEnd 0 3; BatchEnd 0 5]) = [].
Proof.
  destruct (latest_checkpoint_cadence (Item:=unit) (sample_saver 1 (Some 5))) as [Hset _].
  destruct (Hset 5) as (_ & _ & _ & Hrun); [reflexivity|discriminate|].
  destruct (Hrun (sample_trainer 0 0) [(0, 3); (0, 5); (0, 7); (1, 10); (1, 11)] ∅)
    as [Hlast Hmax].
  split; [exact Hlast|]. split.
  - apply (λ Hsorted, Hmax Hsorted (1, 10) eq_refl).
    simpl. repeat constructor; lia.
  - destruct (latest_checkpoint_cadence (Item:=unit) (sample_saver 1 None)) as [_ Hunset].
    destruct Hunset as [_ Hnone]; [reflexivity|].
    apply (Hnone (sample_trainer 0 0) [(0, 3); (0, 5)]).
Defined.

(** C8 on cadences 1 and 0. *)
Lemma cadence_precondition_witness :
  outcome (on_epoch_end (Item:=unit) (sample_saver 1 (Some 1)) (sample_trainer 7 70)) = Ok tt
  ∧ outcome (on_batch_end (Item:=unit) (sample_saver 1 (Some 1)) (sample_trainer 7 70)) = Ok tt
  ∧ on_epoch_end (Item:=unit) (sample_saver 0 (Some 0)) (sample_trainer 0 0)
    = ([], Raise ZeroDivisionError)
  ∧ on_batch_end (Item:=unit) (sample_saver 0 (Some 0)) (sample_trainer 0 0)
    = ([], Raise ZeroDivisionError).
Proof.
  destruct (cadence_precondition (Item:=unit)) as (_ & Hepoch & Hbatch & Hez & Hbz).
  split_and!.
  - apply Hepoch. simpl. lia.
  - apply Hbatch. intros n [= <-]. lia.
  - apply Hez. reflexivity.
  - apply Hbz. reflexivity.
Defined.

(** C9 on cadences 1000, at epoch 0 and step 0. *)
Lemma start_boundary_checkpoints_witness :
  on_epoch_end (Item:=unit) (sample_saver 1000 (Some 1000)) (sample_trainer 0 0) =
    ([SaveCheckpoint (MkPath ["./models/"; "demo_epoch_0.ckpt"]) (sample_trainer 0 0)], Ok tt)
  ∧ on_batch_end (Item:=unit) (sample_saver 1000 (Some 1000)) (sample_trainer 0 0) =
    ([SaveCheckpoint (MkPath ["./models/"; "demo_latest.ckpt"]) (sample_trainer 0 0)], Ok tt).
Proof.
  destruct (start_boundary_checkpoints (Item:=unit)
              (sample_saver 1000 (Some 1000)) (sample_trainer 0 0)) as [Hepoch Hstep].
  split.
  - apply Hepoch; reflexivity.
  - apply (Hstep 1000); [reflexivity|discriminate|reflexivity].
Defined.

Section TrainFacts.
Context {Item : Type} (world : World Item).
Implicit Types (cfg : Config) (self : CheckpointSaver) (trainer : Trainer).

Lemma load_each_spec (dirs : list string) bs np :
  load_each world dirs bs np =
    ((λ dir, LoadDataset dir bs np) <$> dirs,
     Ok ((λ dir, stored_items world dir bs np) <$> dirs)).
Proof.
  induction dirs as [|dir dirs IH]; [done|].
  simpl. rewrite IH. simpl. by rewrite app_nil_r.
Qed.

Lemma prepare_dataset_single cfg :
  merge_datasets cfg = false →
  prepare_dataset world cfg =
    ([LoadDataset (data_dir cfg) (batch_size cfg) (normalize_prefix cfg)],
     Ok (Single (stored_items world (data_dir cfg) (batch_size cfg) (normalize_prefix cfg)))).
Proof. intros Hm. unfold prepare_dataset. by rewrite Hm. Qed.

Lemma prepare_dataset_too_few cfg :
  merge_datasets cfg = true →
  (length (split "," (data_dir cfg)) < 2)%nat →
  ∃ msg, prepare_dataset world cfg = ([], Raise (ValueError msg)).
Proof.
  intros Hm Hlen. unfold prepare_dataset. rewrite Hm.
  destruct (Nat.ltb_spec (length (split "," (data_dir cfg))) 2); [|lia].
  by eexists.
Qed.

Lemma prepare_dataset_merged cfg :
  merge_datasets cfg = true →
  (2 ≤ length (split "," (data_dir cfg)))%nat →
  let datasets :=
    (λ dir, stored_items world dir (batch_size cfg) (normalize_prefix cfg))
      <$> split "," (data_dir cfg) in
  prepare_dataset world cfg =
    ((λ dir, LoadDataset dir (batch_size cfg) (normalize_prefix cfg))
       <$> split "," (data_dir cfg),
     Ok (Multiple (MkMultiple datasets (cumulative 0 datasets)))).
Proof.
  intros Hm Hlen datasets. unfold prepare_dataset. rewrite Hm.
  destruct (Nat.ltb_spec (length (split "," (data_dir cfg))) 2); [lia|].
  rewrite load_each_spec. simpl. fold datasets.
  rewrite merge_Ok by (unfold datasets; by rewrite length_fmap).
  simpl. by rewrite app_nil_r.
Qed.

(** The events of dataset preparation are dataset loads. *)
Lemma prepare_dataset_events cfg :
  Forall (λ ev, ∃ dir bs np, ev = LoadDataset dir bs np)
    (events (prepare_dataset world cfg)).
Proof.
  destruct (merge_datasets cfg) eqn:Hm.
  - destruct (Nat.lt_ge_cases (length (split "," (data_dir cfg))) 2) as [Hlt|Hge].
    + destruct (prepare_dataset_too_few cfg Hm Hlt) as [msg ->]. constructor.
    + rewrite prepare_dataset_merged by done. simpl.
      apply Forall_fmap, Forall_forall. intros dir _. simpl. eauto.
  - rewrite prepare_dataset_single by done. repeat constructor. eauto.
Qed.

(** A hook saves to the epoch file or to the latest file, and fails only by
    a division by zero. *)
Lemma on_epoch_end_cases self trainer :
  Forall (hook_event self) (events (on_epoch_end (Item:=Item) self trainer))
  ∧ (∀ e, outcome (on_epoch_end (Item:=Item) self trainer) = Raise e → e = ZeroDivisionError).
Proof.
  destruct (decide (save_every_n_epochs self = 0)) as [Hz|Hnz].
  { rewrite on_epoch_end_zero by done. split; [constructor|]. by intros e [= <-]. }
  destruct (decide (current_epoch trainer `mod` save_every_n_epochs self = 0)).
  - rewrite on_epoch_end_save by done. split; [|done].
    repeat constructor. exists trainer. left. eauto.
  - rewrite on_epoch_end_skip by done. split; [constructor|done].
Qed.

Lemma on_batch_end_cases self trainer :
  Forall (hook_event self) (events (on_batch_end (Item:=Item) self trainer))
  ∧ (∀ e, outcome (on_batch_end (Item:=Item) self trainer) = Raise e → e = ZeroDivisionError).
Proof.
  destruct (save_every_n_steps self) as [n|] eqn:Hn.
  2:{ rewrite on_batch_end_unset by done. split; [constructor|done]. }
  destruct (decide (n = 0)) as [->|Hnz].
  { rewrite on_batch_end_zero by done. split; [constructor|]. by intros e [= <-]. }
  destruct (decide (global_step trainer `mod` n = 0)).
  - rewrite (on_batch_end_save self trainer n) by done. split; [|done].
    repeat constructor. exists trainer. by right.
  - rewrite (on_batch_end_skip self trainer n) by done. split; [constructor|done].
Qed.

Lemma run_hooks_cases self trainer hs :
  Forall (hook_event self) (events (run_hooks (Item:=Item) self trainer hs))
  ∧ (∀ e, outcome (run_hooks (Item:=Item) self trainer hs) = Raise e → e = ZeroDivisionError).
Proof.
  revert trainer. induction hs as [|h hs IH]; intros trainer.
  { split; [constructor|done]. }
  simpl. destruct h as [e s|e s]; simpl.
  - destruct (on_epoch_end_cases self (set_counters trainer e s)) as [Hev Hout].
    destruct (on_epoch_end self (set_counters trainer e s)) as [tr [[]|err]]; simpl in *.
    + destruct (IH (set_counters trainer e s)) as [Hev' Hout'].
      destruct (run_hooks self (set_counters trainer e s) hs) as [tr' r]; simpl in *.
      rewrite app_nil_r. split; [by apply Forall_app|done].
    + split; [done|]. intros e' [= <-]. by apply Hout.
  - destruct (on_batch_end_cases self (set_counters trainer e s)) as [Hev Hout].
    destruct (on_batch_end self (set_counters trainer e s)) as [tr [[]|err]]; simpl in *.
    + destruct (IH (set_counters trainer e s)) as [Hev' Hout'].
      destruct (run_hooks self (set_counters trainer e s) hs) as [tr' r]; simpl in *.
      rewrite app_nil_r. split; [by apply Forall_app|done].
    + split; [done|]. intros e' [= <-]. by apply Hout.
Qed.

End TrainFacts.

Section TrainTrace.
Context {Item : Type} (world : World Item).
Implicit Types (cfg : Config).

(** What [train] does once the dataset is there: it builds the model,
    creates the saver, runs the fit and, if the fit returns, saves the
    final checkpoint. *)
Lemma train_trace cfg tr dataset :
  prepare_dataset world cfg = (tr, Ok dataset) →
  let saver :=
    MkCheckpointSaver (Path_of (output_dir cfg)) (output_name_prefix cfg)
      (save_every_epochs cfg) (save_every_steps cfg) in
  let trainer :=
    MkTrainer (select_gpus (gpu_devices cfg)) (epochs cfg) (deepspeed_strategy cfg)
      (if use_16bit_precision cfg then 16 else 32) 0 0 in
  let dataloader := MkDataLoader dataset 1 false in
  ∃ model msg,
    kw_total_steps (kwargs_of model) = Z.of_nat (len dataset) * epochs cfg
    ∧ let run := run_hooks saver trainer (fit_hooks world model dataloader trainer) in
      events (train world cfg) =
        tr ++ [BuildModel model; Print msg; Mkdir (Path_of (output_dir cfg));
               Fit model dataloader trainer]
           ++ events run
           ++ match outcome run with
              | Ok t => [SaveCheckpoint
                           (Path_of (output_dir cfg) // (output_name_prefix cfg +:+ "_final.ckpt"))
                           t]
              | Raise _ => []
              end
      ∧ outcome (train world cfg) =
          match outcome run with
          | Ok _ => Ok tt
          | Raise e => Raise e
          end.
Proof.
  intros Hprep saver trainer dataloader. unfold train. rewrite Hprep.
  destruct (prefix_only cfg); cbn -[Z.mul Z.of_nat len run_hooks];
    match goal with
    | |- context [BuildModel ?m :: Print ?s :: _] => exists m, s
    end;
    (split; [reflexivity|]);
    fold saver trainer dataloader;
    destruct (run_hooks saver trainer _) as [trh [t|e]]; simpl;
    (split; [|done]); by rewrite ?app_nil_r.
Qed.

Lemma train_no_dataset cfg tr e :
  prepare_dataset world cfg = (tr, Raise e) → train world cfg = (tr, Raise e).
Proof. intros Hprep. unfold train. by rewrite Hprep. Qed.

End TrainTrace.

(** ** Projections of the trace of [train] *)

Section TraceProjections.
Context {Item : Type}.
Implicit Types (tr : list (Event Item)) (self : CheckpointSaver).

Lemma omap_none {A B} (f : A → option B) (l : list A) :
  Forall (λ x, f x = None) l → omap f l = [].
Proof. induction 1 as [|x l Hx _ IH]; [done|]. csimpl. by rewrite Hx. Qed.

Lemma loads_only_loaded tr :
  Forall (λ ev, ∃ dir bs np, ev = LoadDataset dir bs np) tr →
  built_models tr = [] ∧ fit_calls tr = [] ∧ ∀ p, saved_to p tr = [].
Proof.
  intros Hall. split_and!; [| |intros p]; apply omap_none;
    (eapply Forall_impl; [exact Hall|]); by intros ev (dir & bs & np & ->).
Qed.

Lemma hooks_only_save self tr :
  Forall (hook_event self) tr →
  loaded_dirs tr = [] ∧ built_models tr = [] ∧ fit_calls tr = []
  ∧ saved_to (output_path self // (filename_prefix self +:+ "_final.ckpt")) tr = [].
Proof.
  intros Hall. split_and!; apply omap_none;
    (eapply Forall_impl; [exact Hall|]); intros ev [state [[e ->]| ->]]; try done.
  - destruct (decide _) as [Heq|]; [|done].
    apply Path_div_inj, append_inv_head in Heq. discriminate.
  - destruct (decide _) as [Heq|]; [|done].
    apply Path_div_inj, append_inv_head in Heq. discriminate.
Qed.

End TraceProjections.

(** ** The data loader *)

Section LoaderFacts.
Context {Item : Type}.

Lemma batched_one {A} (l : list A) : batched (length l) 1 l = (λ x, [x]) <$> l.
Proof.
  induction l as [|x l IH]; [done|].
  simpl. rewrite drop_0, take_0. by rewrite IH.
Qed.

Lemma iter_batches_sequential (permute : list nat → list nat) (dataset : Dataset Item) :
  iter_batches permute (MkDataLoader dataset 1 false) =
    (λ i, [getitem dataset i]) <$> seq 0 (len dataset).
Proof.
  unfold iter_batches. simpl.
  rewrite <- (length_fmap (getitem dataset)), batched_one.
  by rewrite <- list_fmap_compose.
Qed.

Lemma lookup_seq_all {A} (l : list A) :
  (λ i, [l !! i]) <$> seq 0 (length l) = (λ x, [Some x]) <$> l.
Proof.
  induction l as [|x l IH]; [done|].
  cbn [length seq]. rewrite !fmap_cons. f_equal.
  rewrite <- fmap_S_seq, <- list_fmap_compose. by rewrite <- IH.
Qed.

Lemma length_concat_sum (ms : list (list Item)) :
  length (concat ms) = sum_list (length <$> ms).
Proof.
  induction ms as [|m ms IH]; [done|]. csimpl. rewrite length_app. lia.
Qed.

(** A pass over a merged dataset, one item per batch, reads the members in
    construction order and each member in its own order. *)
Lemma iter_batches_merged (permute : list nat → list nat) (ms : list (list Item)) :
  iter_batches permute
    (MkDataLoader (Multiple (MkMultiple ms (cumulative 0 ms))) 1 false) =
    (λ x, [Some x]) <$> concat ms.
Proof.
  rewrite iter_batches_sequential. simpl. rewrite multiple_len_sum.
  transitivity ((λ i, [concat ms !! i]) <$> seq 0 (length (concat ms))).
  - rewrite length_concat_sum. apply Forall_fmap_ext, Forall_forall.
    intros i Hi%elem_of_seq. rewrite multiple_getitem_concat; [done|lia].
  - apply lookup_seq_all.
Qed.

Lemma iter_batches_single (permute : list nat → list nat) (items : list Item) :
  iter_batches permute (MkDataLoader (Single items) 1 false) =
    (λ x, [Some x]) <$> items.
Proof.
  rewrite iter_batches_sequential. apply lookup_seq_all.
Qed.

End LoaderFacts.

(** ** train *)

Section TrainClaims.
Context {Item : Type}.
Implicit Types (world : World Item) (cfg : Config).

(** The projections of a whole run whose dataset was prepared. *)
Lemma train_projections world cfg tr dataset :
  prepare_dataset world cfg = (tr, Ok dataset) →
  let final := Path_of (output_dir cfg) // (output_name_prefix cfg +:+ "_final.ckpt") in
  ∃ model trainer,
    kw_total_steps (kwargs_of model) = Z.of_nat (len dataset) * epochs cfg
    ∧ gpus trainer = select_gpus (gpu_devices cfg)
    ∧ loaded_dirs (events (train world cfg)) = loaded_dirs tr
    ∧ built_models (events (train world cfg)) = [model]
    ∧ fit_calls (events (train world cfg)) = [(model, MkDataLoader dataset 1 false, trainer)]
    ∧ (∀ e, outcome (train world cfg) = Raise e → e = ZeroDivisionError)
    ∧ (outcome (train world cfg) = Ok tt →
       ∃ tr' t, events (train world cfg) = tr' ++ [SaveCheckpoint final t]
                ∧ saved_to final (events (train world cfg)) = [t]).
Proof.
  intros Hprep final.
  destruct (train_trace world cfg tr dataset Hprep) as (model & msg & Hsteps & Hev & Hout).
  pose proof (prepare_dataset_events world cfg) as Hloads.
  rewrite Hprep in Hloads. simpl in Hloads.
  destruct (loads_only_loaded tr Hloads) as (Hb & Hf & Hs).
  set (saver := MkCheckpointSaver (Path_of (output_dir cfg)) (output_name_prefix cfg)
                  (save_every_epochs cfg) (save_every_steps cfg)) in *.
  set (trainer := MkTrainer (select_gpus (gpu_devices cfg)) (epochs cfg)
                    (deepspeed_strategy cfg) (if use_16bit_precision cfg then 16 else 32) 0 0) in *.
  set (run := run_hooks saver trainer _) in *.
  destruct (run_hooks_cases (Item:=Item) saver trainer
              (fit_hooks world model (MkDataLoader dataset 1 false) trainer))
    as [Hhooks Hraise].
  fold run in Hhooks, Hraise.
  destruct (hooks_only_save saver (events run) Hhooks) as (Hl' & Hb' & Hf' & Hs').
  change (output_path saver // (filename_prefix saver +:+ "_final.ckpt")) with final in Hs'.
  exists model, trainer. split; [done|]. split; [done|].
  rewrite Hev, Hout.
  unfold loaded_dirs, built_models, fit_calls, saved_to in *.
  rewrite !omap_app, ?Hb, ?Hf, ?Hs, ?Hl', ?Hb', ?Hf', ?Hs'.
  destruct (outcome run) as [t|e] eqn:Hrun; csimpl.
  - rewrite decide_True by done. rewrite !app_nil_r.
    split_and!; try done.
    intros _. exists (tr ++ [BuildModel model; Print msg; Mkdir (Path_of (output_dir cfg));
                             Fit model (MkDataLoader dataset 1 false) trainer] ++ events run), t.
    split; [|done]. by rewrite <- !app_assoc.
  - rewrite !app_nil_r. split_and!; try done.
    intros e' [= <-]. by apply Hraise.
Qed.


(** C4: in merge mode, a [data_dir] that splits into fewer than two
    entries makes [train] raise the configuration error with nothing done
    before it; with two or more entries that error is not raised and one
    dataset is loaded per listed directory, in order, to form the members
    of the merged dataset. *)
Theorem merge_needs_two_directories world cfg :
  merge_datasets cfg = true →
  let data_dirs := split "," (data_dir cfg) in
  ((length data_dirs < 2)%nat →
     ∃ msg, train world cfg = ([], Raise (ValueError msg)))
  ∧ ((2 ≤ length data_dirs)%nat →
     (∀ msg, outcome (train world cfg) ≠ Raise (ValueError msg))
     ∧ loaded_dirs (events (train world cfg)) = data_dirs
     ∧ ∃ c, outcome (prepare_dataset world cfg) = Ok (Multiple c)
            ∧ members c =
                (λ dir, stored_items world dir (batch_size cfg) (normalize_prefix cfg))
                  <$> data_dirs).
Proof.
  intros Hm data_dirs. split.
  - intros Hlen. destruct (prepare_dataset_too_few world cfg Hm Hlen) as [msg Hprep].
    exists msg. by apply train_no_dataset.
  - intros Hlen. pose proof (prepare_dataset_merged world cfg Hm Hlen) as Hprep.
    simpl in Hprep. fold data_dirs in Hprep.
    destruct (train_projections world cfg _ _ Hprep)
      as (model & trainer & _ & _ & Hloaded & _ & _ & Hraise & _).
    split_and!.
    + intros msg Hout. by apply Hraise in Hout.
    + rewrite Hloaded. unfold loaded_dirs. clear.
      induction data_dirs as [|dir dirs IH]; [done|]. csimpl. by rewrite IH.
    + eexists. rewrite Hprep. by split.
Qed.

(** C5: the [total_steps] given to the model is the dataset length times
    the epoch count, whatever the two are; the dataset length is that of
    the one dataset, or the sum of the member lengths in merge mode. *)
Theorem total_steps_derived world cfg tr dataset :
  prepare_dataset world cfg = (tr, Ok dataset) →
  (λ m, kw_total_steps (kwargs_of m)) <$> built_models (events (train world cfg))
    = [Z.of_nat (len dataset) * epochs cfg]
  ∧ len dataset =
      if merge_datasets cfg
      then sum_list ((λ dir, length (stored_items world dir (batch_size cfg)
                                       (normalize_prefix cfg)))
                       <$> split "," (data_dir cfg))
      else length (stored_items world (data_dir cfg) (batch_size cfg) (normalize_prefix cfg)).
Proof.
  intros Hprep. split.
  - destruct (train_projections world cfg tr dataset Hprep)
      as (model & trainer & Hsteps & _ & _ & -> & _).
    simpl. by rewrite Hsteps.
  - destruct (merge_datasets cfg) eqn:Hm.
    + destruct (Nat.lt_ge_cases (length (split "," (data_dir cfg))) 2) as [Hlt|Hge].
      { destruct (prepare_dataset_too_few world cfg Hm Hlt) as [msg Hfail]. congruence. }
      rewrite (prepare_dataset_merged world cfg Hm Hge) in Hprep.
      injection Hprep as _ <-. simpl. rewrite multiple_len_sum.
      by rewrite <- list_fmap_compose.
    + rewrite (prepare_dataset_single world cfg Hm) in Hprep. by injection Hprep as _ <-.
Qed.

(** C6: the final save writes [{prefix}_final.ckpt] whatever the cadences
    and the counters are; a run of [train] that completes ends with that
    save, it is the only save to that file, and the file then holds the
    state the trainer had when the fit returned. *)
Theorem final_checkpoint_once :
  (∀ self trainer,
     save_final_checkpoint (Item:=Item) self trainer =
       ([SaveCheckpoint (output_path self // (filename_prefix self +:+ "_final.ckpt"))
           trainer], Ok tt))
  ∧ (∀ world cfg,
       outcome (train world cfg) = Ok tt →
       let final := Path_of (output_dir cfg) // (output_name_prefix cfg +:+ "_final.ckpt") in
       ∃ tr t,
         events (train world cfg) = tr ++ [SaveCheckpoint final t]
         ∧ saved_to final (events (train world cfg)) = [t]
         ∧ ∀ fs, files (events (train world cfg)) fs !! final = Some t).
Proof.
  split; [done|]. intros world cfg Hok final.
  destruct (prepare_dataset world cfg) as [tr0 [dataset|e]] eqn:Hprep.
  2:{ rewrite (train_no_dataset world cfg tr0 e Hprep) in Hok. done. }
  destruct (train_projections world cfg tr0 dataset Hprep)
    as (model & trainer & _ & _ & _ & _ & _ & _ & Hfinal).
  destruct (Hfinal Hok) as (tr & t & Hev & Hsaved).
  exists tr, t. split_and!; [done|done|].
  intros fs. rewrite Hev, files_app, files_save. apply lookup_insert_eq.
Qed.

(** C10: [train] starts the engine with one data loader, over the prepared
    dataset, with batch size 1 and no shuffling, whatever [batch_size] the
    configuration has; a pass over it yields one item per batch in
    ascending index order, which in merge mode is the members in the order
    of the listed directories, each in its own order. *)
Theorem dataloader_sequential world cfg tr dataset :
  prepare_dataset world cfg = (tr, Ok dataset) →
  (λ call, call.1.2) <$> fit_calls (events (train world cfg))
    = [MkDataLoader dataset 1 false]
  ∧ ∀ permute : list nat → list nat,
      iter_batches permute (MkDataLoader dataset 1 false)
        = (λ i, [getitem dataset i]) <$> seq 0 (len dataset)
      ∧ iter_batches permute (MkDataLoader dataset 1 false)
        = (λ x, [Some x]) <$>
            (if merge_datasets cfg
             then concat ((λ dir, stored_items world dir (batch_size cfg)
                                    (normalize_prefix cfg))
                            <$> split "," (data_dir cfg))
             else stored_items world (data_dir cfg) (batch_size cfg) (normalize_prefix cfg)).
Proof.
  intros Hprep. split.
  - destruct (train_projections world cfg tr dataset Hprep)
      as (model & trainer & _ & _ & _ & _ & -> & _).
    done.
  - intros permute. split; [apply iter_batches_sequential|].
    destruct (merge_datasets cfg) eqn:Hm.
    + destruct (Nat.lt_ge_cases (length (split "," (data_dir cfg))) 2) as [Hlt|Hge].
      { destruct (prepare_dataset_too_few world cfg Hm Hlt) as [msg Hfail]. congruence. }
      rewrite (prepare_dataset_merged world cfg Hm Hge) in Hprep.
      injection Hprep as _ <-. apply iter_batches_merged.
    + rewrite (prepare_dataset_single world cfg Hm) in Hprep.
      injection Hprep as _ <-. apply iter_batches_single.
Qed.

End TrainClaims.



(** C4 on the directory lists "A" and "A,B". *)
Lemma merge_needs_two_directories_witness :
  (∃ msg, train sample_world (sample_config "A" true 1 None (VInt 0))
          = ([], Raise (ValueError msg)))
  ∧ loaded_dirs (events (train sample_world (sample_config "A,B" true 1 None (VInt 0))))
    = ["A"; "B"].
Proof.
  split.
  - destruct (merge_needs_two_directories sample_world
                (sample_config "A" true 1 None (VInt 0))) as [Hfew _]; [reflexivity|].
    apply Hfew. simpl. lia.
  - destruct (merge_needs_two_directories sample_world
                (sample_config "A,B" true 1 None (VInt 0))) as [_ Hmany]; [reflexivity|].
    destruct Hmany as (_ & Hloaded & _); [simpl; lia|].
    exact Hloaded.
Defined.

(** C5 on directories of 100 and 50 items and 3 epochs: 450 steps. *)
Lemma total_steps_derived_witness :
  (λ m, kw_total_steps (kwargs_of m))
    <$> built_models (events (train sample_world (sample_config "A,B" true 1 None (VInt 0))))
  = [450].
Proof.
  edestruct (total_steps_derived sample_world (sample_config "A,B" true 1 None (VInt 0)))
    as [Hsteps _]; [reflexivity|].
  exact Hsteps.
Defined.

(** C6 on a run of three epochs with epoch cadence 2 and no step cadence. *)
Lemma final_checkpoint_once_witness :
  saved_to (MkPath ["./models/"; "demo_final.ckpt"])
    (events (train sample_world (sample_config "A,B" true 2 None (VInt 0))))
  = [MkTrainer (VList [VInt 0]) 3 None 16 2 450].
Proof.
  destruct (final_checkpoint_once (Item:=nat)) as [_ Hrun].
  destruct (Hrun sample_world (sample_config "A,B" true 2 None (VInt 0)))
    as (tr & t & Hev & Hsaved & Hfile); [reflexivity|].
  etrans; [exact Hsaved|]. f_equal.
  specialize (Hfile ∅). vm_compute in Hfile. by injection Hfile as <-.
Defined.

(** C10 on the merged sample directories: 150 batches of one item. *)
Lemma dataloader_sequential_witness :
  iter_batches reverse
    (MkDataLoader
       (Multiple (MkMultiple [seq 0 100; seq 100 50] (cumulative 0 [seq 0 100; seq 100 50])))
       1 false)
  = (λ x, [Some x]) <$> seq 0 150.
Proof.
  edestruct (dataloader_sequential sample_world (sample_config "A,B" true 1 None (VInt 0)))
    as [_ Hiter]; [reflexivity|].
  destruct (Hiter reverse) as [_ Hmerged]. exact Hmerged.
Defined.

(** * Further properties of the callback and of [train] *)

(** ** What a run writes, and where *)

Section Writes.
Context {Item : Type}.
Implicit Types (self : CheckpointSaver) (trainer : Trainer) (world : World Item)
  (cfg : Config) (tr : list (Event Item)) (fs : gmap Path Trainer).

Lemma files_untouched tr fs p : saved_to p tr = [] → files tr fs !! p = fs !! p.
Proof.
  revert fs. induction tr as [|ev tr IH]; intros fs Hnone; [done|].
  rewrite files_cons. unfold saved_to in Hnone. csimpl in Hnone.
  destruct ev as [q|q state|dir bs np|m|msg|m dl t]; simpl in Hnone;
    try (rewrite IH by done; done).
  destruct (decide (q = p)) as [->|Hne]; [done|].
  rewrite IH by done. rewrite files_save. by apply lookup_insert_ne.
Qed.


(** The events of [train] when the dataset was prepared: the loads, the
    four set-up calls, then saves only, each to the output path joined with
    the prefix and one of the three suffixes. *)
Lemma train_events_shape world cfg tr dataset :
  prepare_dataset world cfg = (tr, Ok dataset) →
  ∃ model msg trainer post,
    events (train world cfg) =
      tr ++ [BuildModel model; Print msg; Mkdir (Path_of (output_dir cfg));
             Fit model (MkDataLoader dataset 1 false) trainer] ++ post
    ∧ Forall (λ ev, ∃ suffix state,
                ev = SaveCheckpoint
                       (Path_of (output_dir cfg) // (output_name_prefix cfg +:+ suffix))
                       state
                ∧ ((∃ e, suffix = "_epoch_" +:+ str e +:+ ".ckpt")
                   ∨ suffix = "_latest.ckpt" ∨ suffix = "_final.ckpt")) post.
Proof.
  intros Hprep.
  destruct (train_trace world cfg tr dataset Hprep) as (model & msg & _ & Hev & _).
  set (saver := MkCheckpointSaver (Path_of (output_dir cfg)) (output_name_prefix cfg)
                  (save_every_epochs cfg) (save_every_steps cfg)) in *.
  set (trainer := MkTrainer _ _ _ _ _ _) in *.
  set (run := run_hooks saver trainer _) in *.
  destruct (run_hooks_cases (Item:=Item) saver trainer
              (fit_hooks world model (MkDataLoader dataset 1 false) trainer))
    as [Hhooks _].
  fold run in Hhooks.
  eexists model, msg, trainer, _. split; [exact Hev|].
  apply Forall_app. split.
  - eapply Forall_impl; [exact Hhooks|].
    intros ev [state [[e ->]| ->]].
    + exists ("_epoch_" +:+ str e +:+ ".ckpt"), state. split; [done|]. left. by exists e.
    + exists "_latest.ckpt", state. split; [done|]. right. by left.
  - destruct (outcome run) as [t|]; [|constructor].
    repeat constructor. exists "_final.ckpt", t. split; [done|]. right. by right.
Qed.

(** X3: when [train] fails, no final checkpoint is written: the final save
    is not attempted after a failed fit, and whatever [{prefix}_final.ckpt]
    held before the run is still there. *)
Theorem no_final_checkpoint_on_failure world cfg e :
  outcome (train world cfg) = Raise e →
  let final := Path_of (output_dir cfg) // (output_name_prefix cfg +:+ "_final.ckpt") in
  saved_to final (events (train world cfg)) = []
  ∧ ∀ fs, files (events (train world cfg)) fs !! final = fs !! final.
Proof.
  intros Hfail final.
  assert (saved_to final (events (train world cfg)) = []) as Hnone.
  { pose proof (prepare_dataset_events world cfg) as Hloads.
    destruct (prepare_dataset world cfg) as [tr [dataset|e']] eqn:Hprep.
    - destruct (train_trace world cfg tr dataset Hprep) as (model & msg & _ & Hev & Hout).
      rewrite Hout in Hfail. rewrite Hev.
      set (saver := MkCheckpointSaver (Path_of (output_dir cfg)) (output_name_prefix cfg)
                      (save_every_epochs cfg) (save_every_steps cfg)) in *.
      set (trainer := MkTrainer _ _ _ _ _ _) in *.
      set (run := run_hooks saver trainer _) in *.
      destruct (run_hooks_cases (Item:=Item) saver trainer
                  (fit_hooks world model (MkDataLoader dataset 1 false) trainer))
        as [Hhooks _].
      fold run in Hhooks.
      destruct (hooks_only_save saver (events run) Hhooks) as (_ & _ & _ & Hs).
      destruct (loads_only_loaded tr Hloads) as (_ & _ & Hl).
      destruct (outcome run); [done|].
      unfold saved_to in *. rewrite !omap_app, Hl. csimpl.
      rewrite app_nil_r. exact Hs.
    - rewrite (train_no_dataset world cfg _ _ Hprep).
      by destruct (loads_only_loaded tr Hloads) as (_ & _ & ->). }
  split; [done|]. intros fs. by apply files_untouched.
Qed.

(** X4: every save [train] makes through its [CheckpointSaver] comes after
    the saver's constructor has issued the [mkdir] for [Path(output_dir)],
    and its target is [Path(output_dir) / (output_name_prefix + suffix)]
    with the suffix of an epoch file, of the latest file or of the final
    file.  (Where the joined path lies is for [pathlib] to say: a prefix
    that is absolute or climbs with [..] leaves the directory.) *)
Theorem checkpoint_saves_follow_mkdir world cfg p state :
  SaveCheckpoint p state ∈ events (train world cfg) →
  (∃ suffix,
     p = Path_of (output_dir cfg) // (output_name_prefix cfg +:+ suffix)
     ∧ ((∃ e, suffix = "_epoch_" +:+ str e +:+ ".ckpt")
        ∨ suffix = "_latest.ckpt" ∨ suffix = "_final.ckpt"))
  ∧ ∃ pre post,
      events (train world cfg) = pre ++ Mkdir (Path_of (output_dir cfg)) :: post
      ∧ SaveCheckpoint p state ∈ post
      ∧ ∀ q s, SaveCheckpoint q s ∉ pre.
Proof.
  intros Hin.
  pose proof (prepare_dataset_events world cfg) as Hloads.
  destruct (prepare_dataset world cfg) as [tr [dataset|e']] eqn:Hprep.
  2:{ rewrite (train_no_dataset world cfg _ _ Hprep) in Hin. simpl in *.
      rewrite Forall_forall in Hloads.
      by destruct (Hloads _ Hin) as (dir & bs & np & ?). }
  destruct (train_events_shape world cfg tr dataset Hprep)
    as (model & msg & trainer & post & Hev & Hpost).
  rewrite Hev in Hin |- *. simpl in Hloads.
  rewrite Forall_forall in Hloads, Hpost.
  assert (SaveCheckpoint p state ∈ post) as Hinpost.
  { apply elem_of_app in Hin as [Hin|Hin].
    { by destruct (Hloads _ Hin) as (dir & bs & np & ?). }
    apply elem_of_app in Hin as [Hin|Hin]; [|done].
    repeat (apply elem_of_cons in Hin as [?|Hin]; [done|]).
    by apply elem_of_nil in Hin. }
  split.
  - destruct (Hpost _ Hinpost) as (suffix & state' & [= -> _] & Hsuffix). eauto.
  - exists (tr ++ [BuildModel model; Print msg]),
           (Fit model (MkDataLoader dataset 1 false) trainer :: post).
    split_and!.
    + by rewrite <- app_assoc.
    + apply elem_of_cons. by right.
    + intros q s Hq. apply elem_of_app in Hq as [Hq|Hq].
      * by destruct (Hloads _ Hq) as (dir & bs & np & ?).
      * repeat (apply elem_of_cons in Hq as [?|Hq]; [done|]).
        by apply elem_of_nil in Hq.
Qed.

End Writes.

(** X3 on a run whose epoch cadence is 0. *)
Lemma no_final_checkpoint_on_failure_witness :
  saved_to (MkPath ["./models/"; "demo_final.ckpt"])
    (events (train sample_world (sample_config "A" false 0 None (VInt 0)))) = [].
Proof.
  destruct (no_final_checkpoint_on_failure sample_world
              (sample_config "A" false 0 None (VInt 0)) ZeroDivisionError) as [Hnone _].
  - reflexivity.
  - exact Hnone.
Defined.

(** X4 on the first epoch checkpoint of a sample run: it comes after the
    [mkdir] of "./models/". *)
Lemma checkpoint_saves_follow_mkdir_witness :
  ∃ pre post,
    events (train sample_world (sample_config "A" false 1 None (VInt 0)))
    = pre ++ Mkdir (Path_of "./models/") :: post
    ∧ SaveCheckpoint (MkPath ["./models/"; "demo_epoch_0.ckpt"])
        (MkTrainer (VList [VInt 0]) 3 None 16 0 150) ∈ post
    ∧ ∀ q s, SaveCheckpoint q s ∉ pre.
Proof.
  destruct (checkpoint_saves_follow_mkdir sample_world
              (sample_config "A" false 1 None (VInt 0))
              (MkPath ["./models/"; "demo_epoch_0.ckpt"])
              (MkTrainer (VList [VInt 0]) 3 None 16 0 150)) as [_ Horder].
  - apply list_elem_of_lookup. exists 5%nat. reflexivity.
  - exact Horder.
Defined.

(** ** What the engine is started with *)

Section EngineStart.
Context {Item : Type}.
Implicit Types (world : World Item) (cfg : Config).

(** The trace of [train] with the model, the message and the trainer
    written out. *)
Lemma train_trace_exact world cfg tr dataset :
  prepare_dataset world cfg = (tr, Ok dataset) →
  let kw :=
    MkModelKwargs (language_model_type cfg) (language_model_variant cfg)
      (prefix_length cfg) (clip_prefix_length cfg) (prefix_size cfg)
      (num_layers cfg) (num_attention_heads cfg) (mapping_type cfg)
      (scheduler_warmup_steps cfg) (Z.of_nat (len dataset) * epochs cfg)
      (use_deepspeed cfg) in
  let model := if prefix_only cfg then CLIPCaptionPrefixOnly kw else CLIPCaptionModel kw in
  let msg := if prefix_only cfg then "Train only Prefix."
             else "Train both Prefix and Language Model." in
  let saver :=
    MkCheckpointSaver (Path_of (output_dir cfg)) (output_name_prefix cfg)
      (save_every_epochs cfg) (save_every_steps cfg) in
  let trainer :=
    MkTrainer (select_gpus (gpu_devices cfg)) (epochs cfg) (deepspeed_strategy cfg)
      (if use_16bit_precision cfg then 16 else 32) 0 0 in
  let dataloader := MkDataLoader dataset 1 false in
  let run := run_hooks saver trainer (fit_hooks world model dataloader trainer) in
  events (train world cfg) =
    tr ++ [BuildModel model; Print msg; Mkdir (Path_of (output_dir cfg));
           Fit model dataloader trainer]
       ++ events run
       ++ match outcome run with
          | Ok t => [SaveCheckpoint
                       (Path_of (output_dir cfg) // (output_name_prefix cfg +:+ "_final.ckpt"))
                       t]
          | Raise _ => []
          end.
Proof.
  intros Hprep kw model msg saver trainer dataloader run.
  unfold train. rewrite Hprep. subst run model msg.
  destruct (prefix_only cfg); cbn -[Z.mul Z.of_nat len run_hooks];
    fold kw saver trainer dataloader;
    destruct (run_hooks saver trainer _) as [trh [t|e]]; simpl;
    by rewrite ?app_nil_r.
Qed.


(** X6: the [total_steps] the model is built with is the number of batches
    one pass over the data loader yields times the trainer's epoch budget:
    with batch size 1 there is one batch per dataset item. *)
Theorem total_steps_counts_batches world cfg model dataloader trainer :
  (model, dataloader, trainer) ∈ fit_calls (events (train world cfg)) →
  ∀ permute : list nat → list nat,
    kw_total_steps (kwargs_of model)
    = Z.of_nat (length (iter_batches permute dataloader)) * max_epochs trainer.
Proof.
  intros Hin permute.
  pose proof (prepare_dataset_events world cfg) as Hloads.
  destruct (prepare_dataset world cfg) as [tr [dataset|e]] eqn:Hprep.
  2:{ rewrite (train_no_dataset world cfg _ _ Hprep) in Hin. simpl in *.
      destruct (loads_only_loaded tr Hloads) as (_ & Hf & _).
      rewrite Hf in Hin. by apply elem_of_nil in Hin. }
  destruct (train_projections world cfg tr dataset Hprep)
    as (model' & trainer' & Hsteps & _ & _ & _ & Hfit & _).
  pose proof (train_trace_exact world cfg tr dataset Hprep) as Hev. cbv zeta in Hev.
  rewrite Hfit in Hin. apply list_elem_of_singleton in Hin. injection Hin as -> -> ->.
  rewrite iter_batches_sequential, length_fmap, length_seq, Hsteps. f_equal.
  (* the trainer's epoch budget is [epochs] *)
  rewrite Hev in Hfit. unfold fit_calls in Hfit. rewrite omap_app in Hfit.
  simpl in Hloads. destruct (loads_only_loaded tr Hloads) as (_ & Hf & _).
  unfold fit_calls in Hf. rewrite Hf in Hfit. csimpl in Hfit.
  by injection Hfit as _ <-.
Qed.

(** X7: outside merge mode [data_dir] is one directory, commas included: it
    is loaded as it stands, it alone, the directory check does not apply,
    and the engine gets the single dataset. *)
Theorem single_directory_verbatim world cfg :
  merge_datasets cfg = false →
  loaded_dirs (events (train world cfg)) = [data_dir cfg]
  ∧ (∀ msg, outcome (train world cfg) ≠ Raise (ValueError msg))
  ∧ (λ call, dl_dataset call.1.2) <$> fit_calls (events (train world cfg))
    = [Single (stored_items world (data_dir cfg) (batch_size cfg) (normalize_prefix cfg))].
Proof.
  intros Hm. pose proof (prepare_dataset_single world cfg Hm) as Hprep.
  destruct (train_projections world cfg _ _ Hprep)
    as (model & trainer & _ & _ & Hloaded & _ & Hfit & Hraise & _).
  split_and!.
  - by rewrite Hloaded.
  - intros msg Hout. by apply Hraise in Hout.
  - by rewrite Hfit.
Qed.

End EngineStart.


Lemma total_steps_counts_batches_witness :
  450 = Z.of_nat (length (iter_batches (Item:=nat) reverse
                            (MkDataLoader
                               (Multiple (MkMultiple [seq 0 100; seq 100 50]
                                            (cumulative 0 [seq 0 100; seq 100 50])))
                               1 false))) * 3.
Proof.
  apply (total_steps_counts_batches sample_world
           (sample_config "A,B" true 1 None (VInt 0))
           (CLIPCaptionModel
              (MkModelKwargs "gpt2" "gpt2-xl" 10 10 768 8 8 "transformer" 500 450 false))
           _ (MkTrainer (VList [VInt 0]) 3 None 16 0 0)).
  apply list_elem_of_lookup. exists 0%nat. reflexivity.
Defined.

Lemma single_directory_verbatim_witness :
  loaded_dirs (events (train sample_world (sample_config "A,B" false 1 None (VInt 0))))
  = ["A,B"].
Proof.
  destruct (single_directory_verbatim sample_world
              (sample_config "A,B" false 1 None (VInt 0))) as [Hloaded _].
  - reflexivity.
  - exact Hloaded.
Defined.

(** ** Splitting the directory list *)

Section Split.
Implicit Types (sep : ascii) (s w : string).

Lemma split_not_nil sep s : split sep s ≠ [].
Proof.
  destruct s as [|c s]; simpl; [done|].
  destruct (decide (c = sep)); [done|]. by destruct (split sep s).
Qed.

(** Joining the pieces with the separator gives the string back. *)
Lemma split_concat sep s : String.concat (String sep "") (split sep s) = s.
Proof.
  induction s as [|c s IH]; [done|]. simpl.
  pose proof (split_not_nil sep s) as Hnil.
  destruct (decide (c = sep)) as [->|Hne].
  - destruct (split sep s) as [|w ws]; [done|].
    change (String.concat (String sep "") ("" :: w :: ws))
      with (String sep (String.concat (String sep "") (w :: ws))).
    by rewrite IH.
  - destruct (split sep s) as [|w ws]; [done|].
    destruct ws as [|w' ws]; simpl in *; by rewrite <- IH.
Qed.

(** One piece more than there are separators. *)
Lemma split_length sep s :
  length (split sep s)
  = S (length (filter (λ c, c = sep) (list_ascii_of_string s))).
Proof.
  induction s as [|c s IH]; [done|]. simpl. rewrite filter_cons.
  pose proof (split_not_nil sep s) as Hnil.
  destruct (decide (c = sep)) as [->|Hne]; simpl; [by rewrite IH|].
  destruct (split sep s) as [|w ws]; [done|]. by rewrite <- IH.
Qed.

(** No piece contains the separator. *)
Lemma split_no_sep sep s w : w ∈ split sep s → sep ∉ list_ascii_of_string w.
Proof.
  revert w. induction s as [|c s IH]; intros w Hw; simpl in *.
  - apply list_elem_of_singleton in Hw as ->. apply not_elem_of_nil.
  - pose proof (split_not_nil sep s) as Hnil.
    destruct (decide (c = sep)) as [->|Hne].
    + apply elem_of_cons in Hw as [->|Hw]; [apply not_elem_of_nil|by apply IH].
    + destruct (split sep s) as [|w0 ws]; [done|].
      apply elem_of_cons in Hw as [->|Hw].
      * simpl. apply not_elem_of_cons. split; [done|].
        apply IH, elem_of_cons. by left.
      * apply IH, elem_of_cons. by right.
Qed.

End Split.

Section MergeDirectories.
Context {Item : Type}.
Implicit Types (world : World Item) (cfg : Config).

(** X8: in merge mode the directory list is cut at every comma and at
    nothing else.  Without a comma in [data_dir] the run fails with the
    [ValueError] before doing anything; with commas, one dataset is loaded
    per piece, one more than there are commas, no piece contains a comma,
    and the pieces joined by commas are [data_dir] again: empty pieces and
    blanks are kept as they are. *)
Theorem merge_directories_from_commas world cfg :
  merge_datasets cfg = true →
  let commas :=
    length (filter (λ c, c = ","%char) (list_ascii_of_string (data_dir cfg))) in
  (commas = 0%nat → ∃ msg, train world cfg = ([], Raise (ValueError msg)))
  ∧ (commas ≠ 0%nat →
     length (loaded_dirs (events (train world cfg))) = S commas
     ∧ String.concat "," (loaded_dirs (events (train world cfg))) = data_dir cfg
     ∧ ∀ dir, dir ∈ loaded_dirs (events (train world cfg)) →
         ","%char ∉ list_ascii_of_string dir).
Proof.
  intros Hm commas.
  pose proof (split_length "," (data_dir cfg)) as Hlen. fold commas in Hlen.
  split.
  - intros Hzero.
    destruct (prepare_dataset_too_few world cfg Hm) as [msg Hprep]; [lia|].
    exists msg. by apply train_no_dataset.
  - intros Hsome.
    assert (2 ≤ length (split "," (data_dir cfg)))%nat as Hge by lia.
    pose proof (prepare_dataset_merged world cfg Hm Hge) as Hprep. simpl in Hprep.
    destruct (train_projections world cfg _ _ Hprep)
      as (model & trainer & _ & _ & Hloaded & _).
    assert (loaded_dirs (events (train world cfg)) = split "," (data_dir cfg)) as ->.
    { rewrite Hloaded. unfold loaded_dirs.
      generalize (split "," (data_dir cfg)). intros dirs.
      induction dirs as [|dir dirs IH]; [done|]. csimpl. by rewrite IH. }
    split_and!; [done|apply split_concat|apply split_no_sep].
Qed.

End MergeDirectories.

(** X8 on a directory list with an empty piece. *)
Lemma merge_directories_from_commas_witness :
  (∃ msg, train sample_world (sample_config "A" true 1 None (VInt 0))
          = ([], Raise (ValueError msg)))
  ∧ length (loaded_dirs (events (train sample_world
                                   (sample_config "A,,B" true 1 None (VInt 0))))) = 3%nat.
Proof.
  split.
  - destruct (merge_directories_from_commas sample_world
                (sample_config "A" true 1 None (VInt 0))) as [Hnone _]; [reflexivity|].
    apply Hnone. reflexivity.
  - destruct (merge_directories_from_commas sample_world
                (sample_config "A,,B" true 1 None (VInt 0))) as [_ Hsome]; [reflexivity|].
    destruct Hsome as [Hlen _]; [discriminate|]. exact Hlen.
Defined.

(** ** Device selection *)

(** X9: after the selection step the engine never gets a bare integer other
    than -1: an integer (a boolean counts as one) is either -1 or has been
    wrapped in a list, so it names a device and not a device count.
    Selecting twice is selecting once. *)
Theorem select_gpus_wraps_integers (v : value) :
  (isinstance_int (select_gpus v) = true → select_gpus v = VInt (-1))
  ∧ (isinstance_int v = true → v ≠ VInt (-1) → select_gpus v = VList [v])
  ∧ select_gpus (select_gpus v) = select_gpus v.
Proof.
  unfold select_gpus.
  destruct v as [|b|n|s|l|l]; simpl; try done.
  - by destruct b.
  - destruct (Z.eqb_spec n (-1)) as [->|Hne]; simpl; [done|].
    split_and!; try done.
Qed.

Lemma select_gpus_wraps_integers_witness :
  select_gpus (VInt 3) = VList [VInt 3] ∧ select_gpus (VBool true) = VList [VBool true].
Proof.
  split.
  - destruct (select_gpus_wraps_integers (VInt 3)) as (_ & Hwrap & _).
    apply Hwrap; [reflexivity|discriminate].
  - destruct (select_gpus_wraps_integers (VBool true)) as (_ & Hwrap & _).
    apply Hwrap; [reflexivity|discriminate].
Defined.

(** ** More on the callback *)

Section CallbackMore.
Context {Item : Type}.
Implicit Types (self : CheckpointSaver) (trainer : Trainer) (fs : gmap Path Trainer).

Lemma mod_opp_zero (a b : Z) : a `mod` (- b) = 0 ↔ a `mod` b = 0.
Proof.
  destruct (decide (b = 0)) as [->|Hb]; [done|].
  split; intros H.
  - rewrite <- (Z.opp_involutive b). apply Z.mod_opp_r_z; (lia || done).
  - apply Z.mod_opp_r_z; (lia || done).
Qed.

(** X10: the sign of a cadence does not matter: the handlers do the same
    with a cadence and with its negative (the modulo test only asks for
    divisibility), at every epoch and step, negative ones included. *)
Theorem negative_cadence_as_positive p prefix ne ns trainer :
  on_epoch_end (Item:=Item) (MkCheckpointSaver p prefix (- ne) ns) trainer
  = on_epoch_end (MkCheckpointSaver p prefix ne ns) trainer
  ∧ ∀ n, on_batch_end (Item:=Item) (MkCheckpointSaver p prefix ne (Some (- n))) trainer
         = on_batch_end (MkCheckpointSaver p prefix ne (Some n)) trainer.
Proof.
  split.
  - unfold on_epoch_end, mod_. simpl.
    destruct (decide (ne = 0)) as [->|Hne]; [done|].
    destruct (decide (- ne = 0)); [lia|]. simpl.
    by rewrite (decide_ext _ _ _ _ (mod_opp_zero _ _)).
  - intros n. unfold on_batch_end, mod_. simpl.
    destruct (decide (n = 0)) as [->|Hne]; [done|].
    destruct (decide (- n = 0)); [lia|]. simpl.
    by rewrite (decide_ext _ _ _ _ (mod_opp_zero _ _)).
Qed.

(** X11: the three kinds of checkpoint never touch each other's files.  A
    step-end save leaves every epoch file and the final file as they were,
    an epoch-end save leaves the latest file and the final file as they
    were, and the final save leaves the latest file and every epoch file as
    they were. *)
Theorem checkpoint_kinds_are_separate self trainer fs :
  let file (suffix : string) := output_path self // (filename_prefix self +:+ suffix) in
  (∀ e, files (events (on_batch_end (Item:=Item) self trainer)) fs
          !! file ("_epoch_" +:+ str e +:+ ".ckpt")
        = fs !! file ("_epoch_" +:+ str e +:+ ".ckpt"))
  ∧ files (events (on_batch_end (Item:=Item) self trainer)) fs !! file "_final.ckpt"
    = fs !! file "_final.ckpt"
  ∧ files (events (on_epoch_end (Item:=Item) self trainer)) fs !! file "_latest.ckpt"
    = fs !! file "_latest.ckpt"
  ∧ files (events (on_epoch_end (Item:=Item) self trainer)) fs !! file "_final.ckpt"
    = fs !! file "_final.ckpt"
  ∧ files (events (save_final_checkpoint (Item:=Item) self trainer)) fs !! file "_latest.ckpt"
    = fs !! file "_latest.ckpt"
  ∧ (∀ e, files (events (save_final_checkpoint (Item:=Item) self trainer)) fs
            !! file ("_epoch_" +:+ str e +:+ ".ckpt")
          = fs !! file ("_epoch_" +:+ str e +:+ ".ckpt")).
Proof.
  intros file.
  assert (∀ (ev : list (Event Item)) suffix,
            Forall (λ x, ∃ suffix' state,
                      x = SaveCheckpoint (file suffix') state ∧ suffix' ≠ suffix) ev →
            files ev fs !! file suffix = fs !! file suffix) as Hsep.
  { intros ev suffix Hall. apply files_untouched. unfold saved_to.
    apply omap_none. eapply Forall_impl; [exact Hall|].
    intros x (suffix' & state & -> & Hne).
    destruct (decide (file suffix' = file suffix)) as [Heq|]; [|done].
    apply Path_div_inj, append_inv_head in Heq. done. }
  destruct (on_epoch_end_cases (Item:=Item) self trainer) as [Hepoch _].
  destruct (on_batch_end_cases (Item:=Item) self trainer) as [Hbatch _].
  assert (∀ e, "_latest.ckpt" ≠ "_epoch_" +:+ str e +:+ ".ckpt") as Hle by done.
  assert (∀ e, "_final.ckpt" ≠ "_epoch_" +:+ str e +:+ ".ckpt") as Hfe by done.
  assert (∀ e, "_epoch_" +:+ str e +:+ ".ckpt" ≠ "_latest.ckpt") as Hel by done.
  assert (∀ e, "_epoch_" +:+ str e +:+ ".ckpt" ≠ "_final.ckpt") as Hef by done.
  split_and!; try intros e; apply Hsep.
  - destruct (save_every_n_steps self) as [n|] eqn:Hn.
    2:{ rewrite on_batch_end_unset by done. constructor. }
    destruct (decide (n = 0)) as [->|Hnz].
    { rewrite on_batch_end_zero by done. constructor. }
    destruct (decide (global_step trainer `mod` n = 0)).
    + rewrite (on_batch_end_save self trainer n) by done.
      repeat constructor. by exists "_latest.ckpt", trainer.
    + rewrite (on_batch_end_skip self trainer n) by done. constructor.
  - destruct (save_every_n_steps self) as [n|] eqn:Hn.
    2:{ rewrite on_batch_end_unset by done. constructor. }
    destruct (decide (n = 0)) as [->|Hnz].
    { rewrite on_batch_end_zero by done. constructor. }
    destruct (decide (global_step trainer `mod` n = 0)).
    + rewrite (on_batch_end_save self trainer n) by done.
      repeat constructor. by exists "_latest.ckpt", trainer.
    + rewrite (on_batch_end_skip self trainer n) by done. constructor.
  - destruct (decide (save_every_n_epochs self = 0)) as [Hz|Hnz].
    { rewrite on_epoch_end_zero by done. constructor. }
    destruct (decide (current_epoch trainer `mod` save_every_n_epochs self = 0)).
    + rewrite on_epoch_end_save by done. repeat constructor.
      by exists ("_epoch_" +:+ str (current_epoch trainer) +:+ ".ckpt"), trainer.
    + rewrite on_epoch_end_skip by done. constructor.
  - destruct (decide (save_every_n_epochs self = 0)) as [Hz|Hnz].
    { rewrite on_epoch_end_zero by done. constructor. }
    destruct (decide (current_epoch trainer `mod` save_every_n_epochs self = 0)).
    + rewrite on_epoch_end_save by done. repeat constructor.
      by exists ("_epoch_" +:+ str (current_epoch trainer) +:+ ".ckpt"), trainer.
    + rewrite on_epoch_end_skip by done. constructor.
  - repeat constructor. by exists "_final.ckpt", trainer.
  - repeat constructor. by exists "_final.ckpt", trainer.
Qed.

End CallbackMore.

(** ** What a fit run leaves behind *)

Section RunInvariant.
Context {Item : Type}.
Implicit Types (self : CheckpointSaver) (trainer : Trainer) (fs : gmap Path Trainer).

(** Every save of a run stores the trainer with the counters of the hook
    that triggered it: an epoch file is named after the epoch stored in it,
    a multiple of the epoch cadence; the latest file stores a step that is a
    multiple of the step cadence. *)
Lemma run_hooks_saves self trainer hs :
  Forall (λ ev : Event Item, ∃ e s,
            (save_every_n_epochs self ≠ 0 ∧ e `mod` save_every_n_epochs self = 0
             ∧ ev = SaveCheckpoint
                      (output_path self //
                         (filename_prefix self +:+ "_epoch_" +:+ str e +:+ ".ckpt"))
                      (set_counters trainer e s))
            ∨ (∃ n, save_every_n_steps self = Some n ∧ n ≠ 0 ∧ s `mod` n = 0
                    ∧ ev = SaveCheckpoint
                             (output_path self // (filename_prefix self +:+ "_latest.ckpt"))
                             (set_counters trainer e s)))
    (events (run_hooks self trainer hs)).
Proof.
  revert trainer. induction hs as [|h hs IH]; intros trainer; [constructor|].
  cbn [run_hooks]. destruct h as [e s|e s]; simpl;
    specialize (IH (set_counters trainer e s)).
  - destruct (decide (save_every_n_epochs self = 0)) as [Hz|Hnz].
    { rewrite on_epoch_end_zero by done. constructor. }
    destruct (decide (e `mod` save_every_n_epochs self = 0)) as [Hq|Hq].
    + rewrite on_epoch_end_save by done. simpl.
      destruct (run_hooks self (set_counters trainer e s) hs) as [tr r].
      constructor; [|exact IH]. exists e, s. by left.
    + rewrite on_epoch_end_skip by done. simpl.
      destruct (run_hooks self (set_counters trainer e s) hs) as [tr r]. exact IH.
  - destruct (save_every_n_steps self) as [n|] eqn:Hn.
    2:{ rewrite on_batch_end_unset by done. simpl.
        destruct (run_hooks self (set_counters trainer e s) hs) as [tr r]. exact IH. }
    destruct (decide (n = 0)) as [->|Hnz].
    { rewrite on_batch_end_zero by done. constructor. }
    destruct (decide (s `mod` n = 0)) as [Hq|Hq].
    + rewrite (on_batch_end_save self _ n) by done. simpl.
      destruct (run_hooks self (set_counters trainer e s) hs) as [tr r].
      constructor; [|exact IH]. exists e, s. right. by exists n.
    + rewrite (on_batch_end_skip self _ n) by done. simpl.
      destruct (run_hooks self (set_counters trainer e s) hs) as [tr r]. exact IH.
Qed.


End RunInvariant.


(** ** Counting the epoch checkpoints *)

Section Counting.
Context {Item : Type}.
Implicit Types (self : CheckpointSaver) (trainer : Trainer) (fs : gmap Path Trainer).





End Counting.


Section StepsDisabled.
Context {Item : Type}.
Implicit Types (world : World Item) (cfg : Config).

(** X14: with [save_every_steps] set to [None], a run of [train] never
    writes the latest file, whatever hooks the engine fires: what
    [{prefix}_latest.ckpt] held before the run is still there after it. *)
Theorem no_latest_when_steps_disabled world cfg :
  save_every_steps cfg = None →
  let latest := Path_of (output_dir cfg) // (output_name_prefix cfg +:+ "_latest.ckpt") in
  saved_to latest (events (train world cfg)) = []
  ∧ ∀ fs, files (events (train world cfg)) fs !! latest = fs !! latest.
Proof.
  intros Hnone latest.
  assert (saved_to latest (events (train world cfg)) = []) as Hsaved.
  { pose proof (prepare_dataset_events world cfg) as Hloads.
    destruct (prepare_dataset world cfg) as [tr [dataset|e']] eqn:Hprep.
    2:{ rewrite (train_no_dataset world cfg _ _ Hprep).
        by destruct (loads_only_loaded tr Hloads) as (_ & _ & ->). }
    pose proof (train_trace_exact world cfg tr dataset Hprep) as Hev. cbv zeta in Hev.
    destruct (loads_only_loaded tr Hloads) as (_ & _ & Hl).
    rewrite Hev. unfold saved_to in *. rewrite !omap_app, Hl. csimpl.
    match goal with
    | |- context [run_hooks ?sv ?t ?hs] =>
        pose proof (run_hooks_saves (Item:=Item) sv t hs) as Hsaves;
        set (run := run_hooks sv t hs) in *
    end.
    rewrite (omap_none _ (events run)).
    - destruct (outcome run); [|done]. csimpl.
      destruct (decide _) as [Heq|]; [|done].
      apply Path_div_inj, append_inv_head in Heq. discriminate.
    - eapply Forall_impl; [exact Hsaves|].
      intros ev (e & s & [(_ & _ & ->)|(n & Hn & _)]); simpl in *; [|congruence].
      destruct (decide _) as [Heq|]; [|done].
      apply Path_div_inj, append_inv_head in Heq. discriminate. }
  split; [done|]. intros fs. by apply files_untouched.
Qed.

End StepsDisabled.

(** X14 on the merged sample directories. *)
Lemma no_latest_when_steps_disabled_witness :
  saved_to (MkPath ["./models/"; "demo_latest.ckpt"])
    (events (train sample_world (sample_config "A,B" true 1 None (VInt 0)))) = [].
Proof.
  destruct (no_latest_when_steps_disabled sample_world
              (sample_config "A,B" true 1 None (VInt 0))) as [Hsaved _].
  - reflexivity.
  - exact Hsaved.
Defined.

Section MixedRun.
Context {Item : Type}.
Implicit Types (self : CheckpointSaver) (trainer : Trainer) (fs : gmap Path Trainer).

(** X15: in a fit run where epoch-end and step-end hooks come in any order
    and no cadence is zero, the latest file ends up holding the state of the
    last step-end hook whose step is a multiple of the step cadence; the
    epoch-end hooks in between do not disturb it.  If no step qualifies the
    file is as it was before the run. *)
Theorem latest_in_mixed_run self n trainer hs fs :
  save_every_n_epochs self ≠ 0 →
  save_every_n_steps self = Some n → n ≠ 0 →
  let qualifies (h : Hook) :=
    match h with
    | BatchEnd _ s => bool_decide (s `mod` n = 0)
    | EpochEnd _ _ => false
    end in
  files (events (run_hooks (Item:=Item) self trainer hs)) fs
    !! (output_path self // (filename_prefix self +:+ "_latest.ckpt"))
  = match last (filter (λ h, qualifies h = true) hs) with
    | Some (BatchEnd e s) | Some (EpochEnd e s) => Some (set_counters trainer e s)
    | None => fs !! (output_path self // (filename_prefix self +:+ "_latest.ckpt"))
    end.
Proof.
  intros Hne Hn Hnz qualifies. revert trainer fs.
  induction hs as [|h hs IH]; intros trainer fs; [done|].
  cbn [run_hooks]. rewrite filter_cons.
  destruct h as [e s|e s]; simpl;
    specialize (IH (set_counters trainer e s)).
  - destruct (decide (e `mod` save_every_n_epochs self = 0)) as [Hq|Hq].
    + rewrite on_epoch_end_save by done. simpl.
      destruct (run_hooks self (set_counters trainer e s) hs) as [tr r].
      unfold events in *. cbn -[files filter last lookup] in *. rewrite files_cons, files_save, IH.
      destruct (last _) as [[]|]; try done.
      apply lookup_insert_ne. intros Heq.
      apply Path_div_inj, append_inv_head in Heq. discriminate.
    + rewrite on_epoch_end_skip by done. simpl.
      destruct (run_hooks self (set_counters trainer e s) hs) as [tr r].
      unfold events in *. cbn -[files filter last lookup] in *. by rewrite IH.
  - destruct (decide (s `mod` n = 0)) as [Hq|Hq].
    + rewrite (on_batch_end_save self _ n) by done. simpl.
      rewrite bool_decide_true by done. simpl.
      destruct (run_hooks self (set_counters trainer e s) hs) as [tr r].
      unfold events in *. cbn -[files filter last lookup] in *. rewrite files_cons, files_save, IH, last_cons.
      destruct (last _) as [[]|]; try done. apply lookup_insert_eq.
    + rewrite (on_batch_end_skip self _ n) by done. simpl.
      rewrite bool_decide_false by done. simpl.
      destruct (run_hooks self (set_counters trainer e s) hs) as [tr r].
      unfold events in *. cbn -[files filter last lookup] in *. by rewrite IH.
Qed.

End MixedRun.

(** X15 on a run of two epochs with step cadence 2. *)
Lemma latest_in_mixed_run_witness :
  files (events (run_hooks (Item:=unit) (sample_saver 1 (Some 2)) (sample_trainer 0 0)
                   [BatchEnd 0 1; BatchEnd 0 2; EpochEnd 0 2; BatchEnd 1 3; BatchEnd 1 4;
                    EpochEnd 1 4])) ∅
    !! MkPath ["./models/"; "demo_latest.ckpt"]
  = Some (sample_trainer 1 4).
Proof.
  apply (latest_in_mixed_run (Item:=unit) (sample_saver 1 (Some 2)) 2 (sample_trainer 0 0)
           [BatchEnd 0 1; BatchEnd 0 2; EpochEnd 0 2; BatchEnd 1 3; BatchEnd 1 4;
            EpochEnd 1 4] ∅).
  - discriminate.
  - reflexivity.
  - discriminate.
Defined.
